(** * Stock-control reports: the analytics of [app/reports.tsx] and the
      movement write path of [server/routes.ts] and [lib/storage.ts]

    The development embeds the report computations of [ReportsScreen]
    (period filter, entry/exit totals, per-product rankings, consumption
    projection, category breakdown, stock summary) and the handler that
    records a movement, and proves the properties of the written
    specification about them.

    Conventions of the embedding.
    - JavaScript numbers that hold quantities and millisecond time stamps
      are integers of [Z]; on integers below [2^53] the code's double
      arithmetic is exact.  Prices, monetary values and rates are exact
      rationals of [Q]: the code computes them in doubles and rounds
      after every operation, so an equation between two monetary values
      or rates that are computed along different paths is a fact of
      exact arithmetic, true of the code only where no operation rounds;
      the statements below say so where it matters.  The range of the
      integer columns of the database is not represented.
    - [createdAt] is the time value (milliseconds since the epoch) of the
      ISO-8601 string that the stores write with [toISOString]; on such
      strings the lexicographic order used by [Array.prototype.sort()]
      without comparator is the order of the time values.
    - Identifiers are strings; they are assumed not to be names of members
      of [Object.prototype], so that a lookup in an object literal [{}]
      only sees own properties.
    - The wall clock and the time zone of the host are an explicit
      environment [Host]; the source reads them through [new Date()]. *)

From Stdlib Require Import ZArith QArith Qround String Ascii List Bool Lia.
From Stdlib Require Import Permutation Sorted Lqa.
Import ListNotations.
Open Scope Z_scope.

Set Implicit Arguments.

(* ================================================================== *)
(** * Data model ([lib/storage.ts], [shared/schema.ts])               *)
(* ================================================================== *)

Inductive MovementType := Entry | Exit.

Record Movement := mkMovement {
  mov_id : string;
  productId : string;
  type : MovementType;
  quantity : Z;
  note : string;
  createdAt : Z
}.

Record Product := mkProduct {
  prod_id : string;
  prod_name : string;
  categoryId : string;
  prod_quantity : Z;
  minStock : Z;
  price : Q;
  prod_unit : string;
  updatedAt : Z
}.

Record Category := mkCategory {
  cat_id : string;
  cat_name : string;
  color : string
}.

Inductive Period := P7d | P30d | P90d | Pall.

Inductive ReportTab := TabEntries | TabExits | TabGeneral | TabConsumption.

Definition isEntry (m : Movement) : bool :=
  match type m with Entry => true | Exit => false end.

Definition isExit (m : Movement) : bool :=
  match type m with Exit => true | Entry => false end.

(* ================================================================== *)
(** * JavaScript library functions used by the reports                *)
(* ================================================================== *)

(** [a ?? b] on an optional value. *)
Definition nullish {A : Type} (o : option A) (d : A) : A :=
  match o with Some a => a | None => d end.

Definition isSome {A : Type} (o : option A) : bool :=
  match o with Some _ => true | None => false end.

(** [arr.slice(0, n)]. *)
Definition slice0 {A : Type} (n : nat) (l : list A) : list A := firstn n l.

(** ** [Array.prototype.sort(cmp)]

    The sort is stable (ECMAScript 2019): [a] is placed before [b] when
    [cmp(a, b) <= 0] and [a] was before [b].  The parameter [before a b]
    is the test [cmp(a, b) <= 0]. *)
Section Sort.
Context {A : Type}.
Variable before : A -> A -> bool.

Fixpoint insertBy (x : A) (l : list A) : list A :=
  match l with
  | [] => [x]
  | y :: l' => if before x y then x :: y :: l' else y :: insertBy x l'
  end.

Definition sortBy (l : list A) : list A := fold_right insertBy [] l.
End Sort.

(** [arr.sort((a, b) => cmp(a, b))] with an integer-valued comparator. *)
Definition jsSortZ {A : Type} (cmp : A -> A -> Z) (l : list A) : list A :=
  sortBy (fun a b => cmp a b <=? 0) l.

(** The same with a rational-valued comparator. *)
Definition jsSortQ {A : Type} (cmp : A -> A -> Q) (l : list A) : list A :=
  sortBy (fun a b => Qle_bool (cmp a b) 0) l.

(** ** Objects used as maps: [Record<string, V>]

    An object is the list of its own properties in creation order. *)
Definition JsObject (V : Type) := list (string * V).

Fixpoint obj_get {V : Type} (o : JsObject V) (k : string) : option V :=
  match o with
  | [] => None
  | (k', v) :: o' => if String.eqb k' k then Some v else obj_get o' k
  end.

(** [o[k] = v]: an existing property keeps its place, a new one is
    created last. *)
Fixpoint obj_set {V : Type} (o : JsObject V) (k : string) (v : V) : JsObject V :=
  match o with
  | [] => [(k, v)]
  | (k', v') :: o' =>
      if String.eqb k' k then (k', v) :: o' else (k', v') :: obj_set o' k v
  end.

(** Array indices: canonical decimal strings below [2^32 - 1].  Own
    property keys that are array indices are enumerated first, in
    ascending numeric order; the other string keys follow in creation
    order (OrdinaryOwnPropertyKeys). *)
Definition digitOf (c : ascii) : option Z :=
  let n := Z.of_N (N_of_ascii c) in
  if (48 <=? n) && (n <=? 57) then Some (n - 48) else None.

Fixpoint digitsValue (s : string) (acc : Z) : option Z :=
  match s with
  | EmptyString => Some acc
  | String c s' =>
      match digitOf c with
      | Some d => digitsValue s' (acc * 10 + d)
      | None => None
      end
  end.

Definition arrayIndex (s : string) : option Z :=
  match s with
  | EmptyString => None
  | String c s' =>
      match digitOf c, s' with
      | Some 0, EmptyString => Some 0
      | Some 0, _ => None
      | Some _, _ =>
          match digitsValue s 0 with
          | Some n => if n <? 4294967295 then Some n else None
          | None => None
          end
      | None, _ => None
      end
  end.

Definition isIndexKey {V : Type} (kv : string * V) : bool :=
  isSome (arrayIndex (fst kv)).

Definition indexOfKey {V : Type} (kv : string * V) : Z :=
  nullish (arrayIndex (fst kv)) 0.

(** [Object.entries(o)]. *)
Definition Object_entries {V : Type} (o : JsObject V) : list (string * V) :=
  jsSortZ (fun a b => indexOfKey a - indexOfKey b) (filter isIndexKey o)
  ++ filter (fun kv => negb (isIndexKey kv)) o.

(** [Math.round], [Math.ceil] on a finite number. *)
Definition Math_round (x : Q) : Z := Qfloor (x + (1 # 2))%Q.
Definition Math_ceil (x : Q) : Z := Qceiling x.

(** Division that records a zero divisor: [None] stands for the
    non-finite result ([Infinity] or [NaN]) JavaScript would produce. *)
Definition safeDiv (a b : Q) : option Q :=
  if Qeq_bool b 0 then None else Some (a / b)%Q.

(* ================================================================== *)
(** * Host environment read by [new Date()]                           *)
(* ================================================================== *)

(** A time zone as ECMAScript sees it: [LocalTime] maps a UTC time value
    to local time, [UTC] maps a local time value back. *)
Record TimeZone := mkZone {
  LocalTime : Z -> Z;
  UTC : Z -> Z
}.

Record Host := mkHost {
  zone : TimeZone;
  wallClock : Z
}.

(** A zone with a constant offset from UTC (in milliseconds). *)
Definition fixedZone (offset : Z) : TimeZone :=
  {| LocalTime := fun t => t + offset; UTC := fun t => t - offset |}.

Definition MS_PER_DAY : Z := 1000 * 60 * 60 * 24.

(** [d.setDate(d.getDate() - days)]: the local calendar date moves back
    by [days] days with the local time of day kept, then the result is
    converted back to UTC. *)
Definition setDateBack (tz : TimeZone) (t days : Z) : Z :=
  UTC tz (LocalTime tz t - days * MS_PER_DAY).

(** Later calendar days are not earlier instants: the property of a zone
    that the window comparison relies on. *)
Definition calendarOrdered (tz : TimeZone) : Prop :=
  forall t d1 d2, d1 <= d2 ->
    UTC tz (t - d2 * MS_PER_DAY) <= UTC tz (t - d1 * MS_PER_DAY).

(* ================================================================== *)
(** * Period filter ([filterByPeriod], reports.tsx 44-50)             *)
(* ================================================================== *)

Definition windowDays (period : Period) : Z :=
  match period with P7d => 7 | P30d => 30 | _ => 90 end.

Definition cutoffOf (host : Host) (period : Period) : Z :=
  setDateBack (zone host) (wallClock host) (windowDays period).

Definition filterByPeriod (host : Host) (movements : list Movement)
    (period : Period) : list Movement :=
  match period with
  | Pall => movements
  | _ =>
      let cutoff := cutoffOf host period in
      filter (fun m => cutoff <=? createdAt m) movements
  end.

(* ================================================================== *)
(** * Report computations of [ReportsScreen] (reports.tsx 113-210)    *)
(* ================================================================== *)

(** [products.find((p) => p.id === id)]. *)
Definition findProduct (products : list Product) (id : string) : option Product :=
  find (fun p => String.eqb (prod_id p) id) products.

Definition findCategory (categories : list Category) (id : string) : option Category :=
  find (fun c => String.eqb (cat_id c) id) categories.

(** [selectedProductIds.includes(id)]. *)
Definition includes (ids : list string) (id : string) : bool :=
  existsb (String.eqb id) ids.

(** The memo [filtered]: period filter, then the optional product filter. *)
Definition filtered (host : Host) (movements : list Movement) (period : Period)
    (selectedProductIds : list string) : list Movement :=
  let result := filterByPeriod host movements period in
  if (0 <? Z.of_nat (length selectedProductIds))
  then filter (fun m => includes selectedProductIds (productId m)) result
  else result.

Definition entries (filtered : list Movement) : list Movement :=
  filter isEntry filtered.

Definition exits (filtered : list Movement) : list Movement :=
  filter isExit filtered.

(** [ms.reduce((a, m) => a + m.quantity, 0)]. *)
Definition sumQuantity (ms : list Movement) : Z :=
  fold_left (fun a m => a + quantity m) ms 0.

(** [products.find(...)?.price ?? 0]. *)
Definition priceOrZero (products : list Product) (id : string) : Q :=
  nullish (option_map price (findProduct products id)) 0%Q.

(** [ms.reduce((acc, m) => acc + m.quantity * (price ?? 0), 0)], in exact
    arithmetic: the code rounds each product and each partial sum to a
    double. *)
Definition sumValue (products : list Product) (ms : list Movement) : Q :=
  fold_left
    (fun acc m => (acc + inject_Z (quantity m) * priceOrZero products (productId m))%Q)
    ms 0%Q.

Definition totalEntryQty (filtered : list Movement) : Z := sumQuantity (entries filtered).
Definition totalExitQty (filtered : list Movement) : Z := sumQuantity (exits filtered).
Definition entryValue (products : list Product) (filtered : list Movement) : Q :=
  sumValue products (entries filtered).
Definition exitValue (products : list Product) (filtered : list Movement) : Q :=
  sumValue products (exits filtered).

(** ** Rankings ([topEntryByProduct], [topExitByProduct]) *)

Record RankRow := mkRankRow {
  row_product : option Product;
  qty : Z
}.

(** The callback [(m) => { map[m.productId] = (map[m.productId] ?? 0) + m.quantity; }]. *)
Definition addQuantity (map : JsObject Z) (m : Movement) : JsObject Z :=
  obj_set map (productId m) (nullish (obj_get map (productId m)) 0 + quantity m).

(** [const map = {}; ms.forEach(...)]. *)
Definition accumulateQty (ms : list Movement) : JsObject Z :=
  fold_left addQuantity ms [].

(** The chain [Object.entries(map).map(...).filter((x) => x.product)]. *)
Definition rankRows (products : list Product) (ms : list Movement) : list RankRow :=
  filter (fun x => isSome (row_product x))
    (map (fun kv => {| row_product := findProduct products (fst kv); qty := snd kv |})
       (Object_entries (accumulateQty ms))).

(** ... followed by [.sort((a, b) => b.qty - a.qty)]. *)
Definition rankByProduct (products : list Product) (ms : list Movement) : list RankRow :=
  jsSortZ (fun a b => qty b - qty a) (rankRows products ms).

(** ... followed by [.slice(0, 10)]. *)
Definition topByProduct (products : list Product) (ms : list Movement) : list RankRow :=
  slice0 10 (rankByProduct products ms).

Definition topEntryByProduct (products : list Product) (filtered : list Movement) :=
  topByProduct products (entries filtered).

Definition topExitByProduct (products : list Product) (filtered : list Movement) :=
  topByProduct products (exits filtered).

(** Current-price value of a ranking row: summed quantity times the price
    of the resolved product. *)
Definition rowValue (r : RankRow) : Q :=
  (inject_Z (qty r) * nullish (option_map price (row_product r)) 0)%Q.

Definition rankQtySum (rows : list RankRow) : Z :=
  fold_right (fun r a => qty r + a) 0 rows.

Definition rankValueSum (rows : list RankRow) : Q :=
  fold_right (fun r a => (rowValue r + a)%Q) 0%Q rows.

(** ** Consumption analysis ([consumptionData]) *)

Inductive Status := critical | warning | ok.

Record ExitData := mkExitData {
  total : Z;
  dates : list Z
}.

Record ConsumptionEntry := mkConsumptionEntry {
  product : Product;
  category : option Category;
  totalConsumed : Z;
  movCount : nat;
  dailyAvg : Q;
  monthlyProjection : Q;
  daysUntilEmpty : option Z;
  status : Status;
  costProjection : Q
}.

(** The callback of [exits.forEach]: create the record on first sight,
    then add the quantity and push the date. *)
Definition recordExit (o : JsObject ExitData) (m : Movement) : JsObject ExitData :=
  let cur := nullish (obj_get o (productId m)) {| total := 0; dates := [] |} in
  obj_set o (productId m)
    {| total := total cur + quantity m; dates := dates cur ++ [createdAt m] |}.

(** [const exitsByProduct = {}; exits.forEach(...)]. *)
Definition exitsByProduct (exits : list Movement) : JsObject ExitData :=
  fold_left recordExit exits [].

Definition periodDays (period : Period) : option Z :=
  match period with
  | P7d => Some 7
  | P30d => Some 30
  | P90d => Some 90
  | Pall => None
  end.

(** [data.dates.sort()] on ISO time stamps. *)
Definition sortDates (ds : list Z) : list Z := jsSortZ (fun a b => a - b) ds.

Definition daySpan (ds : list Z) : Z :=
  let sortedDates := sortDates ds in
  let firstDate := nth 0 sortedDates 0 in
  let lastDate := last sortedDates 0 in
  Z.max 1 (Math_ceil (inject_Z (lastDate - firstDate) / inject_Z MS_PER_DAY)).

Definition actualDays (period : Period) (ds : list Z) : Z :=
  nullish (periodDays period) (daySpan ds).

(** The [let status ... if ... else if ...] block. *)
Definition statusOf (daysUntilEmpty : option Z) : Status :=
  match daysUntilEmpty with
  | Some d => if d <=? 7 then critical else if d <=? 30 then warning else ok
  | None => ok
  end.

(** The callback of [.map(([productId, data]) => ...)]; [None] is its
    [return null].  The rates are exact quotients; the code rounds
    [dailyAvg], [monthlyProjection], [costProjection] and the argument of
    [Math.round] to doubles, which can move a quotient that is close to
    a half-integer to the other side. *)
Definition consumptionRow (products : list Product) (categories : list Category)
    (period : Period) (kv : string * ExitData) : option ConsumptionEntry :=
  let data := snd kv in
  match findProduct products (fst kv) with
  | None => None
  | Some product =>
      let category := findCategory categories (categoryId product) in
      let actualDays := actualDays period (dates data) in
      let dailyAvg := (inject_Z (total data) / inject_Z (Z.max actualDays 1))%Q in
      let monthlyProjection := (dailyAvg * 30)%Q in
      let daysUntilEmpty :=
        if Qlt_le_dec 0 dailyAvg
        then Some (Math_round (inject_Z (prod_quantity product) / dailyAvg))
        else None in
      Some {| product := product;
              category := category;
              totalConsumed := total data;
              movCount := length (dates data);
              dailyAvg := dailyAvg;
              monthlyProjection := monthlyProjection;
              daysUntilEmpty := daysUntilEmpty;
              status := statusOf daysUntilEmpty;
              costProjection := (monthlyProjection * price product)%Q |}
  end.

(** [.filter(Boolean)] after the [.map]. *)
Fixpoint filterBoolean {A : Type} (l : list (option A)) : list A :=
  match l with
  | [] => []
  | Some a :: l' => a :: filterBoolean l'
  | None :: l' => filterBoolean l'
  end.

Definition consumptionData (products : list Product) (categories : list Category)
    (period : Period) (exits : list Movement) : list ConsumptionEntry :=
  jsSortZ (fun a b => totalConsumed b - totalConsumed a)
    (filterBoolean
       (map (consumptionRow products categories period)
          (Object_entries (exitsByProduct exits)))).

(** ** Category breakdown ([categoryBreakdown])

    [totalVal] is the exact sum; the code rounds each product and each
    partial sum to a double. *)

Record CategoryRow := mkCategoryRow {
  row_category : Category;
  productCount : nat;
  totalQty : Z;
  totalVal : Q
}.

Definition categoryBreakdown (categories : list Category) (products : list Product)
    : list CategoryRow :=
  jsSortQ (fun a b => (totalVal b - totalVal a)%Q)
    (filter (fun c => (0 <? productCount c)%nat)
       (map (fun cat =>
               let catProducts :=
                 filter (fun p => String.eqb (categoryId p) (cat_id cat)) products in
               {| row_category := cat;
                  productCount := length catProducts;
                  totalQty := fold_left (fun a p => a + prod_quantity p) catProducts 0;
                  totalVal :=
                    fold_left (fun a p => (a + inject_Z (prod_quantity p) * price p)%Q)
                      catProducts 0%Q |})
          categories)).

(** ** Stock summary of the general report ([renderGeneralReport], 313-318)

    The two guarded operations are written with their unguarded meaning:
    the division by [products.length] through [safeDiv], the read of
    [categoryBreakdown[0].totalVal] through [nth_error]; [None] is a
    non-finite average or a read through [undefined]. *)
Record StockSummary := mkStockSummary {
  totalStockValue : Q;
  productTotal : nat;
  avgPrice : Q;
  lowStock : list Product;
  zeroStock : list Product;
  maxCatVal : Q
}.

Definition renderGeneralReport (products : list Product)
    (categoryBreakdown : list CategoryRow) : option StockSummary :=
  let totalStockValue :=
    fold_left (fun a p => (a + inject_Z (prod_quantity p) * price p)%Q) products 0%Q in
  match
    (if (0 <? length products)%nat
     then safeDiv (fold_left (fun a p => (a + price p)%Q) products 0%Q)
                  (inject_Z (Z.of_nat (length products)))
     else Some 0%Q),
    (if (0 <? length categoryBreakdown)%nat
     then option_map totalVal (nth_error categoryBreakdown 0)
     else Some 1%Q)
  with
  | Some avgPrice, Some maxCatVal =>
      Some {| totalStockValue := totalStockValue;
              productTotal := length products;
              avgPrice := avgPrice;
              lowStock := filter (fun p => prod_quantity p <=? minStock p) products;
              zeroStock := filter (fun p => prod_quantity p =? 0) products;
              maxCatVal := maxCatVal |}
  | _, _ => None
  end.

(** ** The assembled report *)

Record Report := mkReport {
  rep_tab : ReportTab;
  rep_period : Period;
  rep_filtered : list Movement;
  rep_entries : list Movement;
  rep_exits : list Movement;
  rep_totalEntryQty : Z;
  rep_totalExitQty : Z;
  rep_entryValue : Q;
  rep_exitValue : Q;
  rep_topEntryByProduct : list RankRow;
  rep_topExitByProduct : list RankRow;
  rep_consumptionData : list ConsumptionEntry;
  rep_categoryBreakdown : list CategoryRow;
  rep_stock : StockSummary
}.

(** Everything [ReportsScreen] derives from its state for one render;
    [None] when the stock summary is undefined. *)
Definition assembleReport (host : Host) (tab : ReportTab) (period : Period)
    (selectedProductIds : list string) (movements : list Movement)
    (products : list Product) (categories : list Category) : option Report :=
  let fl := filtered host movements period selectedProductIds in
  let cb := categoryBreakdown categories products in
  match renderGeneralReport products cb with
  | None => None
  | Some stock =>
      Some {| rep_tab := tab;
              rep_period := period;
              rep_filtered := fl;
              rep_entries := entries fl;
              rep_exits := exits fl;
              rep_totalEntryQty := totalEntryQty fl;
              rep_totalExitQty := totalExitQty fl;
              rep_entryValue := entryValue products fl;
              rep_exitValue := exitValue products fl;
              rep_topEntryByProduct := topEntryByProduct products fl;
              rep_topExitByProduct := topExitByProduct products fl;
              rep_consumptionData := consumptionData products categories period (exits fl);
              rep_categoryBreakdown := cb;
              rep_stock := stock |}
  end.

(* ================================================================== *)
(** * Recording a movement                                            *)
(* ================================================================== *)

(** The two tables the write path touches. *)
Record Db := mkDb {
  tbl_products : list Product;
  tbl_movements : list Movement
}.

(** Body of [POST /api/movements]; also the argument of [addMovement]
    (which draws the [id] itself). *)
Record MovementBody := mkBody {
  body_id : string;
  body_productId : string;
  body_type : MovementType;
  body_quantity : Z;
  body_note : string
}.

Inductive Response :=
| Json (m : Movement)
| Status500.

(** The update of [newQuantity] (routes.ts 1376-1382, storage.ts
    addMovement). *)
Definition newQuantity (current : Z) (ty : MovementType) (quantity : Z) : Z :=
  match ty with
  | Entry => current + quantity
  | Exit => Z.max 0 (current - quantity)
  end.

(** [db.insert(movements).values(...)]: the primary key on [id] and the
    foreign key on [product_id] of [shared/schema.ts] make the insert
    throw; [created_at] defaults to now. *)
Definition insertMovement (host : Host) (db : Db) (b : MovementBody)
    : option (Db * Movement) :=
  if existsb (fun m => String.eqb (mov_id m) (body_id b)) (tbl_movements db)
     || negb (existsb (fun p => String.eqb (prod_id p) (body_productId b)) (tbl_products db))
  then None
  else
    let movement :=
      {| mov_id := body_id b; productId := body_productId b; type := body_type b;
         quantity := body_quantity b; note := body_note b;
         createdAt := wallClock host |} in
    Some ({| tbl_products := tbl_products db;
             tbl_movements := tbl_movements db ++ [movement] |}, movement).

(** [db.update(products).set({...}).where(eq(products.id, productId))]. *)
Definition updateQuantity (host : Host) (products : list Product) (id : string)
    (q : Z) : list Product :=
  map (fun p =>
         if String.eqb (prod_id p) id
         then {| prod_id := prod_id p; prod_name := prod_name p;
                 categoryId := categoryId p; prod_quantity := q;
                 minStock := minStock p; price := price p;
                 prod_unit := prod_unit p; updatedAt := wallClock host |}
         else p)
      products.

(** The handler of [app.post("/api/movements", ...)] (routes.ts). *)
Definition postMovements (host : Host) (db : Db) (b : MovementBody) : Db * Response :=
  match insertMovement host db b with
  | None => (db, Status500)
  | Some (db1, movement) =>
      match findProduct (tbl_products db1) (body_productId b) with
      | Some product =>
          let q := newQuantity (prod_quantity product) (body_type b) (body_quantity b) in
          ({| tbl_products := updateQuantity host (tbl_products db1) (body_productId b) q;
              tbl_movements := tbl_movements db1 |}, Json movement)
      | None => (db1, Json movement)
      end
  end.

(** [products[index] = ...] for [index = products.findIndex(...)]: only
    the first product with the id is touched. *)
Fixpoint updateFirst (host : Host) (products : list Product) (b : MovementBody)
    : list Product :=
  match products with
  | [] => []
  | p :: ps =>
      if String.eqb (prod_id p) (body_productId b)
      then {| prod_id := prod_id p; prod_name := prod_name p;
              categoryId := categoryId p;
              prod_quantity := newQuantity (prod_quantity p) (body_type b) (body_quantity b);
              minStock := minStock p; price := price p;
              prod_unit := prod_unit p; updatedAt := wallClock host |} :: ps
      else p :: updateFirst host ps b
  end.

(** [addMovement] of the local store (lib/storage.ts); [body_id] is the
    identifier drawn by [Crypto.randomUUID()]. *)
Definition addMovement (host : Host) (db : Db) (b : MovementBody) : Db * Movement :=
  let movement :=
    {| mov_id := body_id b; productId := body_productId b; type := body_type b;
       quantity := body_quantity b; note := body_note b;
       createdAt := wallClock host |} in
  ({| tbl_products := updateFirst host (tbl_products db) b;
      tbl_movements := tbl_movements db ++ [movement] |}, movement).

(** Stock is never negative. *)
Definition stockNonNegative (products : list Product) : Prop :=
  Forall (fun p => 0 <= prod_quantity p) products.

(* ================================================================== *)
(** * Notions used in the statements                                 *)
(* ================================================================== *)

Definition keysOf {V : Type} (o : JsObject V) : list string := map fst o.

Definition zsum (l : list Z) : Z := fold_right Z.add 0 l.
Definition qsum (l : list Q) : Q := fold_right Qplus 0%Q l.

(** The movements of one product, in list order. *)
Definition movementsOf (id : string) (ms : list Movement) : list Movement :=
  filter (fun m => String.eqb (productId m) id) ms.

Definition hasMovement (id : string) (ms : list Movement) : bool :=
  existsb (fun m => String.eqb (productId m) id) ms.

Definition rowOf (products : list Product) (kv : string * Z) : RankRow :=
  {| row_product := findProduct products (fst kv); qty := snd kv |}.

(** Identifiers in order of first occurrence. *)
Definition firstOccurrences (ids : list string) : list string :=
  fold_left (fun acc id => if existsb (String.eqb id) acc then acc else acc ++ [id])
    ids [].

(** Order of the windows: 7 days, 30 days, 90 days, everything. *)
Definition periodRank (p : Period) : Z :=
  match p with P7d => 0 | P30d => 1 | P90d => 2 | Pall => 3 end.

Definition widerOrEqual (p' p : Period) : Prop := periodRank p <= periodRank p'.

(** What [exitsByProduct] holds for a product: the summed quantity and
    the time stamps of its exits, in list order. *)
Definition dataOf (id : string) (exits : list Movement) : ExitData :=
  {| total := sumQuantity (movementsOf id exits);
     dates := map createdAt (movementsOf id exits) |}.

Definition minOf (l : list Z) : Z :=
  match l with [] => 0 | x :: l' => fold_left Z.min l' x end.

Definition maxOf (l : list Z) : Z :=
  match l with [] => 0 | x :: l' => fold_left Z.max l' x end.

(** Value of an object's entries under a weight per key. *)
Definition weightedSum (w : string -> Q) (o : JsObject Z) : Q :=
  qsum (map (fun kv => (inject_Z (snd kv) * w (fst kv))%Q) o).

(* ================================================================== *)
(** * Sample data                                                     *)
(* ================================================================== *)

Open Scope string_scope.
Open Scope list_scope.
Open Scope Z_scope.

Definition utcHost (now : Z) : Host := {| zone := fixedZone 0; wallClock := now |}.

Definition sampleProduct (id : string) (stock : Z) (unitPrice : Q) : Product :=
  {| prod_id := id; prod_name := id; categoryId := "cat_1";
     prod_quantity := stock; minStock := 0; price := unitPrice;
     prod_unit := "un"; updatedAt := 0 |}.

Definition sampleMovement (pid : string) (ty : MovementType) (q at_ : Z) : Movement :=
  {| mov_id := String.append "m-" pid; productId := pid; type := ty; quantity := q;
     note := EmptyString; createdAt := at_ |}.

Definition elevenIds : list string :=
  ["pa"; "pb"; "pc"; "pd"; "pe"; "pf"; "pg"; "ph"; "pi"; "pj"; "pk"].

Definition elevenProducts : list Product :=
  map (fun id => sampleProduct id 100 1) elevenIds.

Definition elevenMovements (ty : MovementType) : list Movement :=
  map (fun id => sampleMovement id ty 1 0) elevenIds.

(** A product with stock [stock] and a single exit of 10 units, all time. *)
Definition boundaryEntries (stock : Z) : list ConsumptionEntry :=
  consumptionData [sampleProduct "p1" stock 2] [] Pall
    [sampleMovement "p1" Exit 10 0].

(* ================================================================== *)
(** * Further screens and store operations                            *)
(* ================================================================== *)

(** [Math.max] and [Math.min] on finite numbers. *)
Definition Math_maxQ (a b : Q) : Q := if Qlt_le_dec a b then b else a.
Definition Math_minQ (a b : Q) : Q := if Qlt_le_dec a b then a else b.

(** ** [ReportsScreen], the rest (reports.tsx) *)

(** [toggleProduct] (124-128):
    [prev.includes(id) ? prev.filter((x) => x !== id) : [...prev, id]]. *)
Definition toggleProduct (prev : list string) (id : string) : list string :=
  if includes prev id
  then filter (fun x => negb (String.eqb x id)) prev
  else prev ++ [id].

(** The bar width computed by [BarRow] (61-62), in percent. *)
Definition barWidth (value maxValue : Q) : Q :=
  if Qlt_le_dec 0 maxValue then Math_maxQ (value / maxValue * 100) 4 else 4%Q.

(** [top.length > 0 ? top[0].qty : 1] ([maxEntry], [maxExit]). *)
Definition maxEntry (top : list RankRow) : Z :=
  match top with
  | r :: _ => qty r
  | [] => 1
  end.

(** ** [AlertsScreen] and [AlertCard] (alerts tab) *)

Definition alertsLowStock (products : list Product) : list Product :=
  jsSortZ (fun a b => prod_quantity a - prod_quantity b)
    (filter (fun p => prod_quantity p <=? minStock p) products).

Definition alertsOutOfStock (lowStock : list Product) : list Product :=
  filter (fun p => prod_quantity p =? 0) lowStock.

Definition alertsCritical (lowStock : list Product) : list Product :=
  filter (fun p => 0 <? prod_quantity p) lowStock.

Definition alertPercentage (product : Product) : Q :=
  if 0 <? minStock product
  then Math_minQ
         (inject_Z (prod_quantity product) / inject_Z (minStock product) * 100) 100
  else 0%Q.

(** ** [DashboardScreen] (dashboard tab) *)

(** [m.sort((a, b) => new Date(b.createdAt).getTime() - new Date(a.createdAt).getTime())]. *)
Definition sortNewestFirst (m : list Movement) : list Movement :=
  jsSortZ (fun a b => createdAt b - createdAt a) m.

(** [recentMovements = movements.slice(0, 5)] on the list loaded by
    [loadData]. *)
Definition recentMovements (loaded : list Movement) : list Movement :=
  slice0 5 (sortNewestFirst loaded).

(** ** Deleting a product

    [deleteProduct] of lib/storage.ts filters the products, then the
    movements; the handler of [DELETE /api/products/:id] deletes the
    movements of the product, then the product.  Both leave the same
    tables. *)
Definition deleteProduct (db : Db) (id : string) : Db :=
  {| tbl_products := filter (fun p => negb (String.eqb (prod_id p) id)) (tbl_products db);
     tbl_movements :=
       filter (fun m => negb (String.eqb (productId m) id)) (tbl_movements db) |}.

(** ** [handleSave] of [AddMovementScreen] (movement/add.tsx 34-67)

    [parseInt] and [String.prototype.trim] are taken as they come from
    the runtime: [parseInt] answers an integer or [NaN] ([None]). *)
Record MovementForm := mkForm {
  selectedProduct : string;
  form_type : MovementType;
  form_quantity : string;
  form_note : string
}.

Inductive SaveError := SelectProduct | InvalidQuantity | InsufficientStock.

Inductive SaveResult :=
| Alerted (e : SaveError)
| Stored (db : Db) (m : Movement).

Section AddMovementScreen.
Variable parseInt : string -> option Z.
Variable trim : string -> string.

(** [products] is the screen's copy of the catalog, [db] the store,
    [newId] the identifier [Crypto.randomUUID()] will draw. *)
Definition handleSave (host : Host) (products : list Product) (db : Db)
    (newId : string) (form : MovementForm) : SaveResult :=
  if String.eqb (selectedProduct form) EmptyString then Alerted SelectProduct
  else
    match parseInt (form_quantity form) with
    | None => Alerted InvalidQuantity
    | Some qty =>
        if (qty =? 0) || (qty <=? 0) then Alerted InvalidQuantity
        else
          let blocked :=
            match form_type form with
            | Exit =>
                match findProduct products (selectedProduct form) with
                | Some product => prod_quantity product <? qty
                | None => false
                end
            | Entry => false
            end in
          if blocked then Alerted InsufficientStock
          else
            let r :=
              addMovement host db
                {| body_id := newId; body_productId := selectedProduct form;
                   body_type := form_type form; body_quantity := qty;
                   body_note := trim (form_note form) |} in
            Stored (fst r) (snd r)
    end.
End AddMovementScreen.

(** ** Sequences of recorded movements *)

(** Movements recorded one after the other in the local store. *)
Definition recordAll (host : Host) (db : Db) (bodies : list MovementBody) : Db :=
  fold_left (fun d b => fst (addMovement host d b)) bodies db.

(** The quantity of the product found for [id], if any. *)
Definition stockOf (db : Db) (id : string) : option Z :=
  option_map prod_quantity (findProduct (tbl_products db) id).

Definition signedQuantity (b : MovementBody) : Z :=
  match body_type b with
  | Entry => body_quantity b
  | Exit => - body_quantity b
  end.

(** Entries minus exits recorded for [id]. *)
Definition balanceOf (id : string) (bodies : list MovementBody) : Z :=
  zsum (map signedQuantity
          (filter (fun b => String.eqb (body_productId b) id) bodies)).

(** Every movement refers to a stored product; identifiers are unique. *)
Definition referencesIntact (db : Db) : Prop :=
  forall m, In m (tbl_movements db) ->
    findProduct (tbl_products db) (productId m) <> None.

Definition uniqueIds (db : Db) : Prop :=
  NoDup (map prod_id (tbl_products db)) /\ NoDup (map mov_id (tbl_movements db)).

(** ** [CategoriesScreen] (categories.tsx) and [deleteCategory] *)

(** The [counts] object filled by [loadData]:
    [counts[cat.id] = prods.filter((p) => p.categoryId === cat.id).length]. *)
Definition productCounts (cats : list Category) (prods : list Product) : JsObject Z :=
  fold_left
    (fun counts cat =>
       obj_set counts (cat_id cat)
         (Z.of_nat
            (length (filter (fun p => String.eqb (categoryId p) (cat_id cat)) prods))))
    cats [].

(** [deleteCategory] of lib/storage.ts: [categories.filter((c) => c.id !== id)]. *)
Definition deleteCategory (categories : list Category) (id : string) : list Category :=
  filter (fun c => negb (String.eqb (cat_id c) id)) categories.

(** [handleDelete] (categories.tsx 123-150); [confirmed] is the user's
    answer to the confirmation dialog. *)
Definition handleDeleteCategory (counts : JsObject Z) (confirmed : bool)
    (categories : list Category) (cat : Category) : list Category :=
  let count := nullish (obj_get counts (cat_id cat)) 0 in
  if 0 <? count then categories
  else if confirmed then deleteCategory categories (cat_id cat)
  else categories.

(** The row [categoryBreakdown] builds for one category. *)
Definition categoryRowOf (products : list Product) (cat : Category) : CategoryRow :=
  let catProducts :=
    filter (fun p => String.eqb (categoryId p) (cat_id cat)) products in
  {| row_category := cat;
     productCount := length catProducts;
     totalQty := fold_left (fun a p => a + prod_quantity p) catProducts 0;
     totalVal :=
       fold_left (fun a p => (a + inject_Z (prod_quantity p) * price p)%Q)
         catProducts 0%Q |}.

Definition sampleDb : Db :=
  {| tbl_products := [sampleProduct "p1" 3 2; sampleProduct "p2" 8 1];
     tbl_movements := [sampleMovement "p2" Entry 8 0] |}.

Definition sampleBody (id pid : string) (ty : MovementType) (q : Z) : MovementBody :=
  {| body_id := id; body_productId := pid; body_type := ty;
     body_quantity := q; body_note := EmptyString |}.

(* ================================================================== *)
(** * Facts about the library functions                               *)
(* ================================================================== *)

Section SortFacts.
Context {A : Type}.
Variable before : A -> A -> bool.

Lemma insertBy_perm (x : A) (l : list A) :
  Permutation (insertBy before x l) (x :: l).
Proof.
  induction l as [|y l IH]; simpl.
  - apply Permutation_refl.
  - destruct (before x y).
    + apply Permutation_refl.
    + eapply perm_trans; [apply perm_skip, IH | apply perm_swap].
Qed.

Lemma sortBy_perm (l : list A) : Permutation (sortBy before l) l.
Proof.
  induction l as [|x l IH]; simpl.
  - constructor.
  - eapply perm_trans; [apply insertBy_perm | apply perm_skip, IH].
Qed.

Lemma sortBy_In (l : list A) (x : A) : In x (sortBy before l) <-> In x l.
Proof.
  split; apply Permutation_in;
    [apply sortBy_perm | apply Permutation_sym, sortBy_perm].
Qed.

Lemma sortBy_length (l : list A) : length (sortBy before l) = length l.
Proof. apply Permutation_length, sortBy_perm. Qed.

(** Stability: a class of elements that the comparator does not
    separate keeps its relative order. *)
Lemma insertBy_filter (p : A -> bool) (x : A) (l : list A) :
  (forall y, In y l -> p x = true -> p y = true -> before x y = true) ->
  filter p (insertBy before x l) = filter p (x :: l).
Proof.
  induction l as [|y l IH]; intros Hcls; simpl.
  - reflexivity.
  - destruct (before x y) eqn:Hxy; simpl.
    + reflexivity.
    + assert (IH' : filter p (insertBy before x l) = filter p (x :: l)).
      { apply IH. intros z Hz. apply Hcls. now right. }
      simpl in IH'. rewrite IH'.
      destruct (p x) eqn:Hpx; destruct (p y) eqn:Hpy; try reflexivity.
      rewrite (Hcls y (or_introl eq_refl) eq_refl Hpy) in Hxy. discriminate.
Qed.

Lemma sortBy_stable (p : A -> bool) (l : list A) :
  (forall x y, p x = true -> p y = true -> before x y = true) ->
  filter p (sortBy before l) = filter p l.
Proof.
  intros Hcls. induction l as [|x l IH]; simpl.
  - reflexivity.
  - rewrite insertBy_filter by (intros; now apply Hcls).
    simpl. now rewrite IH.
Qed.

Hypothesis before_total : forall x y, before x y = false -> before y x = true.
Hypothesis before_trans :
  forall x y z, before x y = true -> before y z = true -> before x z = true.

Lemma insertBy_sorted (x : A) (l : list A) :
  StronglySorted (fun a b => before a b = true) l ->
  StronglySorted (fun a b => before a b = true) (insertBy before x l).
Proof.
  induction 1 as [|y l Hs IH Hall]; simpl.
  - constructor; constructor.
  - destruct (before x y) eqn:Hxy.
    + constructor.
      * now constructor.
      * constructor; [exact Hxy|].
        rewrite Forall_forall in *. intros z Hz.
        eapply before_trans; [exact Hxy | now apply Hall].
    + constructor; [exact IH|].
      rewrite Forall_forall in *. intros z Hz.
      apply (Permutation_in _ (insertBy_perm x l)) in Hz.
      destruct Hz as [<- | Hz]; [now apply before_total | now apply Hall].
Qed.

Lemma sortBy_sorted (l : list A) :
  StronglySorted (fun a b => before a b = true) (sortBy before l).
Proof.
  induction l as [|x l IH]; simpl.
  - constructor.
  - now apply insertBy_sorted.
Qed.
End SortFacts.

Lemma StronglySorted_weaken {A : Type} (R S : A -> A -> Prop) (l : list A) :
  (forall a b, R a b -> S a b) -> StronglySorted R l -> StronglySorted S l.
Proof.
  intros HRS. induction 1 as [|a l Hs IH Hall]; constructor.
  - exact IH.
  - eapply Forall_impl; [|exact Hall]. intros b. apply HRS.
Qed.

(** Sorting by a numeric key, descending ([(a, b) => key(b) - key(a)]). *)
Lemma jsSortZ_desc_sorted {A : Type} (key : A -> Z) (l : list A) :
  StronglySorted (fun a b => key b <= key a) (jsSortZ (fun a b => key b - key a) l).
Proof.
  unfold jsSortZ.
  apply StronglySorted_weaken with
    (R := fun a b => (key b - key a <=? 0) = true).
  - intros a b H. apply Z.leb_le in H. lia.
  - apply sortBy_sorted.
    + intros x y H. apply Z.leb_gt in H. apply Z.leb_le. lia.
    + intros x y z H1 H2. apply Z.leb_le in H1, H2. apply Z.leb_le. lia.
Qed.

Lemma jsSortZ_desc_stable {A : Type} (key : A -> Z) (q : Z) (l : list A) :
  filter (fun a => key a =? q) (jsSortZ (fun a b => key b - key a) l)
  = filter (fun a => key a =? q) l.
Proof.
  unfold jsSortZ. apply sortBy_stable.
  intros x y Hx Hy. apply Z.eqb_eq in Hx, Hy. apply Z.leb_le. lia.
Qed.

(** Sorting ascending ([(a, b) => key(a) - key(b)]). *)
Lemma jsSortZ_asc_sorted {A : Type} (key : A -> Z) (l : list A) :
  StronglySorted (fun a b => key a <= key b) (jsSortZ (fun a b => key a - key b) l).
Proof.
  unfold jsSortZ.
  apply StronglySorted_weaken with
    (R := fun a b => (key a - key b <=? 0) = true).
  - intros a b H. apply Z.leb_le in H. lia.
  - apply sortBy_sorted.
    + intros x y H. apply Z.leb_gt in H. apply Z.leb_le. lia.
    + intros x y z H1 H2. apply Z.leb_le in H1, H2. apply Z.leb_le. lia.
Qed.

Lemma jsSortZ_perm {A : Type} (cmp : A -> A -> Z) (l : list A) :
  Permutation (jsSortZ cmp l) l.
Proof. apply sortBy_perm. Qed.

Lemma jsSortZ_In {A : Type} (cmp : A -> A -> Z) (l : list A) (x : A) :
  In x (jsSortZ cmp l) <-> In x l.
Proof. apply sortBy_In. Qed.

Lemma filterBoolean_In {A : Type} (l : list (option A)) (a : A) :
  In a (filterBoolean l) <-> In (Some a) l.
Proof.
  induction l as [|[b|] l IH]; simpl.
  - tauto.
  - rewrite IH. split; intros [H|H]; auto; left; congruence.
  - rewrite IH. split; [auto | intros [H|H]; [discriminate | auto]].
Qed.

(** ** Objects *)

Lemma obj_get_set_same {V : Type} (o : JsObject V) (k : string) (v : V) :
  obj_get (obj_set o k v) k = Some v.
Proof.
  induction o as [|[k' v'] o IH]; simpl.
  - now rewrite String.eqb_refl.
  - destruct (String.eqb k' k) eqn:E; simpl; rewrite E; [reflexivity | exact IH].
Qed.

Lemma obj_get_set_other {V : Type} (o : JsObject V) (k k' : string) (v : V) :
  k <> k' -> obj_get (obj_set o k v) k' = obj_get o k'.
Proof.
  intros Hne. induction o as [|[k0 v0] o IH]; simpl.
  - destruct (String.eqb k k') eqn:E; [apply String.eqb_eq in E; contradiction | reflexivity].
  - destruct (String.eqb k0 k) eqn:E; simpl.
    + apply String.eqb_eq in E. subst k0.
      apply String.eqb_neq in Hne. now rewrite Hne.
    + now rewrite IH.
Qed.

Lemma obj_get_In_keys {V : Type} (o : JsObject V) (k : string) :
  In k (keysOf o) <-> obj_get o k <> None.
Proof.
  induction o as [|[k0 v0] o IH]; simpl.
  - split; [tauto | congruence].
  - destruct (String.eqb k0 k) eqn:E.
    + apply String.eqb_eq in E. split; [congruence | auto].
    + apply String.eqb_neq in E. rewrite <- IH. split; [intros [H|H]; [contradiction | exact H] | auto].
Qed.

Lemma keysOf_set {V : Type} (o : JsObject V) (k : string) (v : V) :
  keysOf (obj_set o k v)
  = if isSome (obj_get o k) then keysOf o else keysOf o ++ [k].
Proof.
  induction o as [|[k0 v0] o IH]; simpl.
  - reflexivity.
  - destruct (String.eqb k0 k) eqn:E; simpl.
    + reflexivity.
    + rewrite IH. now destruct (isSome (obj_get o k)).
Qed.

Lemma NoDup_snoc {A : Type} (l : list A) (x : A) :
  NoDup l -> ~ In x l -> NoDup (l ++ [x]).
Proof.
  intros Hnd Hx. induction Hnd as [|y l Hy Hnd IH]; simpl.
  - constructor; [tauto | constructor].
  - constructor.
    + rewrite in_app_iff. simpl. intros [H|[H|[]]]; [contradiction|].
      subst. apply Hx. now left.
    + apply IH. intros H. apply Hx. now right.
Qed.

Lemma obj_set_NoDup {V : Type} (o : JsObject V) (k : string) (v : V) :
  NoDup (keysOf o) -> NoDup (keysOf (obj_set o k v)).
Proof.
  intros Hnd. rewrite keysOf_set.
  destruct (obj_get o k) eqn:E; simpl; [exact Hnd|].
  apply NoDup_snoc; [exact Hnd|].
  rewrite obj_get_In_keys. congruence.
Qed.

Lemma obj_get_In {V : Type} (o : JsObject V) (k : string) (v : V) :
  NoDup (keysOf o) -> (In (k, v) o <-> obj_get o k = Some v).
Proof.
  induction o as [|[k0 v0] o IH]; simpl; intros Hnd.
  - split; [tauto | discriminate].
  - inversion Hnd as [|? ? Hk0 Hnd']; subst.
    destruct (String.eqb k0 k) eqn:E.
    + apply String.eqb_eq in E. subst k0. split.
      * intros [H|H]; [congruence|].
        exfalso. apply Hk0. now apply (in_map fst) in H.
      * intros H. left. congruence.
    + apply String.eqb_neq in E. rewrite <- (IH Hnd'). split.
      * intros [H|H]; [congruence | exact H].
      * auto.
Qed.

Lemma filter_partition_perm {A : Type} (p : A -> bool) (l : list A) :
  Permutation (filter p l ++ filter (fun x => negb (p x)) l) l.
Proof.
  induction l as [|x l IH]; simpl.
  - constructor.
  - destruct (p x); simpl.
    + now constructor.
    + eapply perm_trans; [apply Permutation_sym, Permutation_middle|].
      now constructor.
Qed.

Lemma Object_entries_perm {V : Type} (o : JsObject V) :
  Permutation (Object_entries o) o.
Proof.
  unfold Object_entries.
  eapply perm_trans; [|apply (filter_partition_perm isIndexKey)].
  apply Permutation_app_tail, jsSortZ_perm.
Qed.

Lemma Object_entries_In {V : Type} (o : JsObject V) (kv : string * V) :
  In kv (Object_entries o) <-> In kv o.
Proof.
  split; apply Permutation_in;
    [apply Object_entries_perm | apply Permutation_sym, Object_entries_perm].
Qed.

(** When no key is an array index, enumeration is creation order. *)
Lemma Object_entries_plain {V : Type} (o : JsObject V) :
  (forall k, In k (keysOf o) -> arrayIndex k = None) ->
  Object_entries o = o.
Proof.
  intros Hplain. unfold Object_entries.
  assert (Hall : forall kv, In kv o -> isIndexKey kv = false).
  { intros kv Hkv. unfold isIndexKey. rewrite Hplain; [reflexivity|].
    now apply in_map. }
  clear Hplain.
  assert (H1 : filter isIndexKey o = []).
  { induction o as [|kv o IH]; simpl; [reflexivity|].
    rewrite (Hall kv (or_introl eq_refl)). apply IH.
    intros kv' H. apply Hall. now right. }
  assert (H2 : filter (fun kv => negb (isIndexKey kv)) o = o).
  { induction o as [|kv o IH]; simpl; [reflexivity|].
    rewrite (Hall kv (or_introl eq_refl)). simpl. f_equal. apply IH.
    - intros kv' H. apply Hall. now right.
    - simpl in H1. now rewrite (Hall kv (or_introl eq_refl)) in H1. }
  rewrite H1, H2. reflexivity.
Qed.

Example arrayIndex_samples :
  arrayIndex "0" = Some 0 /\ arrayIndex "10" = Some 10
  /\ arrayIndex "4294967294" = Some 4294967294
  /\ arrayIndex "4294967295" = None /\ arrayIndex "01" = None
  /\ arrayIndex "p1" = None /\ arrayIndex "1e3" = None
  /\ arrayIndex "3b241101-e2bb-4255-8caf-4136c566a962" = None.
Proof. repeat split; vm_compute; reflexivity. Qed.

Example Object_entries_order :
  map fst (Object_entries (obj_set (obj_set (obj_set (obj_set [] "b" 1) "7" 2) "a" 3) "2" 4))
  = ["2"; "7"; "b"; "a"].
Proof. vm_compute. reflexivity. Qed.

(** ** Sums *)

Lemma fold_left_zsum {A : Type} (f : A -> Z) (l : list A) (a : Z) :
  fold_left (fun acc x => acc + f x) l a = a + zsum (map f l).
Proof.
  revert a. induction l as [|x l IH]; intros a; simpl.
  - lia.
  - rewrite IH. lia.
Qed.

Lemma fold_left_qsum {A : Type} (f : A -> Q) (l : list A) (a : Q) :
  (fold_left (fun acc x => acc + f x) l a == a + qsum (map f l))%Q.
Proof.
  revert a. induction l as [|x l IH]; intros a; simpl.
  - ring.
  - rewrite IH. ring.
Qed.

Lemma zsum_perm (l l' : list Z) : Permutation l l' -> zsum l = zsum l'.
Proof. induction 1; simpl; lia. Qed.

Lemma qsum_perm (l l' : list Q) : Permutation l l' -> (qsum l == qsum l')%Q.
Proof.
  induction 1; simpl.
  - reflexivity.
  - now rewrite IHPermutation.
  - ring.
  - now rewrite IHPermutation1.
Qed.

Lemma zsum_app (l l' : list Z) : zsum (l ++ l') = zsum l + zsum l'.
Proof. induction l; simpl; lia. Qed.

Lemma sumQuantity_zsum (ms : list Movement) :
  sumQuantity ms = zsum (map quantity ms).
Proof. unfold sumQuantity. now rewrite fold_left_zsum. Qed.

(* ================================================================== *)
(** * Accumulation by product                                         *)
(* ================================================================== *)

Lemma hasMovement_true (id : string) (ms : list Movement) :
  hasMovement id ms = true <-> exists m, In m ms /\ productId m = id.
Proof.
  unfold hasMovement. rewrite existsb_exists.
  split; intros [m [Hm E]]; exists m; split; auto;
    [now apply String.eqb_eq | now apply String.eqb_eq].
Qed.

Lemma hasMovement_movementsOf (id : string) (ms : list Movement) :
  hasMovement id ms = false <-> movementsOf id ms = [].
Proof.
  unfold hasMovement, movementsOf. induction ms as [|m ms IH]; simpl.
  - tauto.
  - destruct (String.eqb (productId m) id); simpl.
    + split; discriminate.
    + exact IH.
Qed.

Lemma accQty_get (ms : list Movement) (o : JsObject Z) (id : string) :
  obj_get (fold_left addQuantity ms o) id
  = if isSome (obj_get o id) || hasMovement id ms
    then Some (nullish (obj_get o id) 0 + zsum (map quantity (movementsOf id ms)))
    else None.
Proof.
  revert o. induction ms as [|m ms IH]; intros o; simpl.
  - destruct (obj_get o id); simpl; [f_equal; lia | reflexivity].
  - rewrite IH. unfold addQuantity.
    destruct (String.eqb (productId m) id) eqn:E.
    + apply String.eqb_eq in E. rewrite E.
      rewrite obj_get_set_same. simpl.
      rewrite orb_true_r. f_equal. lia.
    + apply String.eqb_neq in E.
      rewrite obj_get_set_other by exact E. simpl. reflexivity.
Qed.

Lemma accQty_NoDup (ms : list Movement) (o : JsObject Z) :
  NoDup (keysOf o) -> NoDup (keysOf (fold_left addQuantity ms o)).
Proof.
  revert o. induction ms as [|m ms IH]; intros o Hnd; simpl.
  - exact Hnd.
  - apply IH. now apply obj_set_NoDup.
Qed.

Lemma set_add_zsum (o : JsObject Z) (k : string) (q : Z) :
  zsum (map snd (obj_set o k (nullish (obj_get o k) 0 + q)))
  = zsum (map snd o) + q.
Proof.
  induction o as [|[k0 v0] o IH]; simpl.
  - lia.
  - destruct (String.eqb k0 k); simpl; [lia | rewrite IH; lia].
Qed.

Lemma accQty_zsum (ms : list Movement) (o : JsObject Z) :
  zsum (map snd (fold_left addQuantity ms o))
  = zsum (map snd o) + zsum (map quantity ms).
Proof.
  revert o. induction ms as [|m ms IH]; intros o; simpl.
  - lia.
  - rewrite IH. unfold addQuantity. rewrite set_add_zsum. lia.
Qed.

Lemma set_add_weighted (w : string -> Q) (o : JsObject Z) (k : string) (q : Z) :
  (weightedSum w (obj_set o k (nullish (obj_get o k) 0 + q)%Z)
   == weightedSum w o + inject_Z q * w k)%Q.
Proof.
  unfold weightedSum. induction o as [|[k0 v0] o IH]; simpl.
  - ring.
  - destruct (String.eqb k0 k) eqn:E; simpl.
    + apply String.eqb_eq in E. subst k0. rewrite inject_Z_plus. ring.
    + rewrite IH. ring.
Qed.

Lemma accQty_weighted (w : string -> Q) (ms : list Movement) (o : JsObject Z) :
  (weightedSum w (fold_left addQuantity ms o)
   == weightedSum w o
      + qsum (map (fun m => (inject_Z (quantity m) * w (productId m))%Q) ms))%Q.
Proof.
  revert o. induction ms as [|m ms IH]; intros o; simpl.
  - ring.
  - rewrite IH. unfold addQuantity. rewrite set_add_weighted. ring.
Qed.


Lemma accumulateQty_get (ms : list Movement) (id : string) :
  obj_get (accumulateQty ms) id
  = if hasMovement id ms
    then Some (sumQuantity (movementsOf id ms))
    else None.
Proof.
  unfold accumulateQty. rewrite accQty_get. simpl.
  now rewrite sumQuantity_zsum.
Qed.

Lemma accumulateQty_NoDup (ms : list Movement) : NoDup (keysOf (accumulateQty ms)).
Proof. apply accQty_NoDup. constructor. Qed.

Lemma accumulateQty_In (ms : list Movement) (id : string) (q : Z) :
  In (id, q) (accumulateQty ms)
  <-> hasMovement id ms = true /\ q = sumQuantity (movementsOf id ms).
Proof.
  rewrite obj_get_In by apply accumulateQty_NoDup.
  rewrite accumulateQty_get.
  destruct (hasMovement id ms).
  - split; [intros H; split; congruence | intros [_ ->]; reflexivity].
  - split; [discriminate | intros [H _]; discriminate].
Qed.

Lemma accumulateQty_total (ms : list Movement) :
  zsum (map snd (accumulateQty ms)) = sumQuantity ms.
Proof.
  unfold accumulateQty. rewrite accQty_zsum, sumQuantity_zsum. simpl. lia.
Qed.

Lemma accumulateQty_value (products : list Product) (ms : list Movement) :
  (qsum (map (fun kv => inject_Z (snd kv) * priceOrZero products (fst kv))
          (accumulateQty ms))
   == sumValue products ms)%Q.
Proof.
  unfold accumulateQty, sumValue.
  change (qsum (map (fun kv => inject_Z (snd kv) * priceOrZero products (fst kv))
                  (fold_left addQuantity ms [])))%Q
    with (weightedSum (priceOrZero products) (fold_left addQuantity ms [])).
  rewrite (accQty_weighted (priceOrZero products)). unfold weightedSum. simpl.
  rewrite (fold_left_qsum
             (fun m => (inject_Z (quantity m) * priceOrZero products (productId m))%Q)).
  reflexivity.
Qed.

(* ================================================================== *)
(** * Rankings                                                        *)
(* ================================================================== *)

Lemma rankQtySum_zsum (rows : list RankRow) : rankQtySum rows = zsum (map qty rows).
Proof. induction rows as [|r rows IH]; simpl; [reflexivity | now rewrite <- IH]. Qed.

Lemma rankValueSum_qsum (rows : list RankRow) :
  rankValueSum rows = qsum (map rowValue rows).
Proof. induction rows as [|r rows IH]; simpl; [reflexivity | now rewrite <- IH]. Qed.

Lemma rankQtySum_perm (l l' : list RankRow) :
  Permutation l l' -> rankQtySum l = rankQtySum l'.
Proof.
  intros H. rewrite !rankQtySum_zsum. now apply zsum_perm, Permutation_map.
Qed.

Lemma rankValueSum_perm (l l' : list RankRow) :
  Permutation l l' -> (rankValueSum l == rankValueSum l')%Q.
Proof.
  intros H. rewrite !rankValueSum_qsum. now apply qsum_perm, Permutation_map.
Qed.

Lemma rankRows_value_gen (products : list Product) (o : list (string * Z)) :
  (rankValueSum (filter (fun x => isSome (row_product x)) (map (rowOf products) o))
   == qsum (map (fun kv => inject_Z (snd kv) * priceOrZero products (fst kv)) o))%Q.
Proof.
  induction o as [|[k v] o IH]; simpl.
  - reflexivity.
  - unfold priceOrZero at 1. simpl.
    destruct (findProduct products k) as [p|] eqn:E; simpl.
    + rewrite IH. unfold rowValue. simpl. rewrite E. simpl. reflexivity.
    + rewrite IH. ring.
Qed.

Lemma rankRows_qty_gen (products : list Product) (o : list (string * Z)) :
  (forall kv, In kv o -> findProduct products (fst kv) <> None) ->
  rankQtySum (filter (fun x => isSome (row_product x)) (map (rowOf products) o))
  = zsum (map snd o).
Proof.
  induction o as [|[k v] o IH]; simpl; intros Hall.
  - reflexivity.
  - destruct (findProduct products k) as [p|] eqn:E; simpl.
    + rewrite IH; [reflexivity|]. intros kv H. apply Hall. now right.
    + exfalso. apply (Hall (k, v)); [now left | exact E].
Qed.

Lemma rankByProduct_perm (products : list Product) (ms : list Movement) :
  Permutation (rankByProduct products ms) (rankRows products ms).
Proof. apply jsSortZ_perm. Qed.

Lemma rankRows_value (products : list Product) (ms : list Movement) :
  (rankValueSum (rankRows products ms) == sumValue products ms)%Q.
Proof.
  unfold rankRows.
  change (fun kv : string * Z =>
            {| row_product := findProduct products (fst kv); qty := snd kv |})
    with (rowOf products).
  rewrite rankRows_value_gen.
  rewrite (qsum_perm (Permutation_map _ (Object_entries_perm (accumulateQty ms)))).
  apply accumulateQty_value.
Qed.

Lemma rankRows_qty (products : list Product) (ms : list Movement) :
  (forall m, In m ms -> findProduct products (productId m) <> None) ->
  rankQtySum (rankRows products ms) = sumQuantity ms.
Proof.
  intros Hcat. unfold rankRows.
  change (fun kv : string * Z =>
            {| row_product := findProduct products (fst kv); qty := snd kv |})
    with (rowOf products).
  rewrite rankRows_qty_gen.
  - rewrite (zsum_perm (Permutation_map _ (Object_entries_perm (accumulateQty ms)))).
    apply accumulateQty_total.
  - intros [k v] Hkv. simpl.
    apply Object_entries_In, accumulateQty_In in Hkv.
    destruct Hkv as [Hk _]. apply hasMovement_true in Hk.
    destruct Hk as [m [Hm <-]]. now apply Hcat.
Qed.

(** A slice that drops nothing keeps the sums of the full ranking. *)
Lemma topByProduct_full (products : list Product) (ms : list Movement) :
  (length (rankByProduct products ms) <= 10)%nat ->
  topByProduct products ms = rankByProduct products ms.
Proof. intros H. unfold topByProduct, slice0. now apply firstn_all2. Qed.

Lemma topByProduct_value (products : list Product) (ms : list Movement) :
  (length (rankByProduct products ms) <= 10)%nat ->
  (rankValueSum (topByProduct products ms) == sumValue products ms)%Q.
Proof.
  intros H. rewrite topByProduct_full by exact H.
  rewrite (rankValueSum_perm (rankByProduct_perm products ms)).
  apply rankRows_value.
Qed.

Lemma topByProduct_qty (products : list Product) (ms : list Movement) :
  (length (rankByProduct products ms) <= 10)%nat ->
  (forall m, In m ms -> findProduct products (productId m) <> None) ->
  rankQtySum (topByProduct products ms) = sumQuantity ms.
Proof.
  intros H Hcat. rewrite topByProduct_full by exact H.
  rewrite (rankQtySum_perm (rankByProduct_perm products ms)).
  now apply rankRows_qty.
Qed.

(** The number of rows is bounded by the number of distinct products
    that occur in the movements. *)
Lemma rankByProduct_length (products : list Product) (ms : list Movement)
    (ids : list string) :
  (forall m, In m ms -> In (productId m) ids) ->
  (length (rankByProduct products ms) <= length ids)%nat.
Proof.
  intros Hids. unfold rankByProduct, jsSortZ. rewrite sortBy_length.
  unfold rankRows.
  eapply Nat.le_trans; [apply filter_length_le|].
  rewrite length_map.
  rewrite (Permutation_length (Object_entries_perm (accumulateQty ms))).
  rewrite <- (length_map fst).
  apply NoDup_incl_length; [apply accumulateQty_NoDup|].
  intros k Hk. apply obj_get_In_keys in Hk.
  rewrite accumulateQty_get in Hk.
  destruct (hasMovement k ms) eqn:E; [|congruence].
  apply hasMovement_true in E. destruct E as [m [Hm <-]]. now apply Hids.
Qed.

Lemma findProduct_id (products : list Product) (id : string) (p : Product) :
  findProduct products id = Some p -> prod_id p = id /\ In p products.
Proof.
  unfold findProduct. intros H. apply find_some in H.
  destruct H as [Hin E]. apply String.eqb_eq in E. auto.
Qed.

Lemma findProduct_exists (products : list Product) (p : Product) :
  In p products -> exists p', findProduct products (prod_id p) = Some p'.
Proof.
  intros Hin. unfold findProduct.
  destruct (find (fun p0 => String.eqb (prod_id p0) (prod_id p)) products) eqn:E.
  - eauto.
  - exfalso. apply (find_none _ _ E) in Hin. now rewrite String.eqb_refl in Hin.
Qed.

Lemma rankByProduct_In (products : list Product) (ms : list Movement) (r : RankRow) :
  In r (rankByProduct products ms)
  <-> exists id p,
        hasMovement id ms = true /\ findProduct products id = Some p /\
        r = {| row_product := Some p; qty := sumQuantity (movementsOf id ms) |}.
Proof.
  unfold rankByProduct. rewrite jsSortZ_In. unfold rankRows.
  rewrite filter_In, in_map_iff. split.
  - intros [[[k v] [<- Hkv]] Hp]. simpl in Hp.
    apply Object_entries_In, accumulateQty_In in Hkv. destruct Hkv as [Hk ->].
    destruct (findProduct products k) as [p|] eqn:E; [|discriminate].
    exists k, p. simpl. rewrite E. auto.
  - intros [id [p [Hk [Hp ->]]]]. split.
    + exists (id, sumQuantity (movementsOf id ms)). simpl. rewrite Hp. split; [reflexivity|].
      apply Object_entries_In, accumulateQty_In. auto.
    + reflexivity.
Qed.

Lemma NoDup_filter {A : Type} (f : A -> bool) (l : list A) :
  NoDup l -> NoDup (filter f l).
Proof.
  induction 1 as [|x l Hx Hnd IH]; simpl.
  - constructor.
  - destruct (f x); [|exact IH].
    constructor; [|exact IH]. intros H. apply filter_In in H. tauto.
Qed.

Lemma NoDup_map_Some {A : Type} (l : list A) : NoDup l -> NoDup (map Some l).
Proof.
  induction 1 as [|x l Hx Hnd IH]; simpl; constructor; [|exact IH].
  intros H. apply in_map_iff in H. destruct H as [y [E Hy]].
  inversion E; subst. contradiction.
Qed.

Lemma rankRows_ids (products : list Product) (l : list (string * Z)) :
  map (fun r => option_map prod_id (row_product r))
    (filter (fun x => isSome (row_product x)) (map (rowOf products) l))
  = map Some (filter (fun k => isSome (findProduct products k)) (map fst l)).
Proof.
  induction l as [|[k v] l IH]; simpl.
  - reflexivity.
  - destruct (findProduct products k) as [p|] eqn:E; simpl.
    + rewrite IH, E. simpl. apply findProduct_id in E. destruct E as [-> _].
      reflexivity.
    + exact IH.
Qed.

Lemma rankByProduct_NoDup (products : list Product) (ms : list Movement) :
  NoDup (map (fun r => option_map prod_id (row_product r))
           (rankByProduct products ms)).
Proof.
  eapply Permutation_NoDup.
  - apply Permutation_sym, Permutation_map, rankByProduct_perm.
  - unfold rankRows.
    change (fun kv : string * Z =>
              {| row_product := findProduct products (fst kv); qty := snd kv |})
      with (rowOf products).
    rewrite rankRows_ids.
    apply NoDup_map_Some, NoDup_filter.
    eapply Permutation_NoDup.
    + apply Permutation_sym, Permutation_map, Object_entries_perm.
    + apply accumulateQty_NoDup.
Qed.

Lemma firstn_In {A : Type} (n : nat) (l : list A) (x : A) :
  In x (firstn n l) -> In x l.
Proof.
  revert n. induction l as [|a l IH]; intros [|n]; simpl; try tauto.
  intros [H|H]; [now left | right; eapply IH; eauto].
Qed.

Lemma StronglySorted_firstn {A : Type} (R : A -> A -> Prop) (n : nat) (l : list A) :
  StronglySorted R l -> StronglySorted R (firstn n l).
Proof.
  intros H. revert n. induction H as [|a l Hs IH Hall]; intros [|n]; simpl;
    try constructor.
  - apply IH.
  - rewrite Forall_forall in *. intros x Hx. apply Hall.
    eapply firstn_In; eauto.
Qed.

(* ================================================================== *)
(** * Conservation of totals (C1)                                     *)
(* ================================================================== *)

(** C1, as stated, fails in two ways.  An exit of a product that is no
    longer in the catalog counts in [totalExitQty] but has no ranking row
    (the [.filter((x) => x.product)]); and with eleven products the
    [.slice(0, 10)] drops a row, so both the quantity and the value of the
    ranking fall short of the totals. *)
Lemma conservation_counterexample :
  rankQtySum (topExitByProduct [] [sampleMovement "ghost" Exit 5 0])
    <> totalExitQty [sampleMovement "ghost" Exit 5 0]
  /\ rankQtySum (topExitByProduct elevenProducts (elevenMovements Exit))
       <> totalExitQty (elevenMovements Exit)
  /\ ~ (rankValueSum (topExitByProduct elevenProducts (elevenMovements Exit))
        == exitValue elevenProducts (elevenMovements Exit))%Q.
Proof.
  repeat split; vm_compute; discriminate.
Qed.

Lemma set_add_weightedZ (w : string -> Z) (o : JsObject Z) (k : string) (q : Z) :
  zsum (map (fun kv => snd kv * w (fst kv))
          (obj_set o k (nullish (obj_get o k) 0 + q)))
  = zsum (map (fun kv => snd kv * w (fst kv)) o) + q * w k.
Proof.
  induction o as [|[k0 v0] o IH]; simpl.
  - lia.
  - destruct (String.eqb k0 k) eqn:E; simpl.
    + apply String.eqb_eq in E. subst k0. lia.
    + rewrite IH. lia.
Qed.

Lemma accQty_weightedZ (w : string -> Z) (ms : list Movement) (o : JsObject Z) :
  zsum (map (fun kv => snd kv * w (fst kv)) (fold_left addQuantity ms o))
  = zsum (map (fun kv => snd kv * w (fst kv)) o)
    + zsum (map (fun m => quantity m * w (productId m)) ms).
Proof.
  revert o. induction ms as [|m ms IH]; intros o; simpl.
  - lia.
  - rewrite IH. unfold addQuantity. rewrite set_add_weightedZ. lia.
Qed.

Lemma rankRows_qty_weighted (products : list Product) (o : list (string * Z)) :
  rankQtySum (filter (fun x => isSome (row_product x)) (map (rowOf products) o))
  = zsum (map (fun kv =>
                 snd kv * (if isSome (findProduct products (fst kv)) then 1 else 0))
            o).
Proof.
  induction o as [|[k v] o IH]; simpl.
  - reflexivity.
  - destruct (findProduct products k); simpl; rewrite IH; lia.
Qed.

Lemma sumQuantity_indicator (f : Movement -> bool) (ms : list Movement) :
  zsum (map (fun m => quantity m * (if f m then 1 else 0)) ms)
  = sumQuantity (filter f ms).
Proof.
  rewrite sumQuantity_zsum. induction ms as [|m ms IH]; simpl.
  - reflexivity.
  - destruct (f m); simpl; rewrite IH; lia.
Qed.

Lemma sumQuantity_partition (f : Movement -> bool) (ms : list Movement) :
  sumQuantity ms
  = sumQuantity (filter f ms) + sumQuantity (filter (fun m => negb (f m)) ms).
Proof.
  rewrite !sumQuantity_zsum. induction ms as [|m ms IH]; simpl.
  - reflexivity.
  - destruct (f m); simpl; lia.
Qed.

(** The rows of the full ranking carry the movements of catalog
    products, whatever else the list holds. *)
Lemma rankByProduct_qty (products : list Product) (ms : list Movement) :
  rankQtySum (rankByProduct products ms)
  = sumQuantity (filter (fun m => isSome (findProduct products (productId m))) ms).
Proof.
  rewrite (rankQtySum_perm (rankByProduct_perm products ms)).
  unfold rankRows.
  change (fun kv : string * Z =>
            {| row_product := findProduct products (fst kv); qty := snd kv |})
    with (rowOf products).
  rewrite rankRows_qty_weighted.
  rewrite (zsum_perm (Permutation_map _ (Object_entries_perm (accumulateQty ms)))).
  unfold accumulateQty.
  rewrite (accQty_weightedZ
             (fun k => if isSome (findProduct products k) then 1 else 0)).
  simpl.
  apply (sumQuantity_indicator
           (fun m => isSome (findProduct products (productId m)))).
Qed.

Lemma rankQtySum_split (n : nat) (rows : list RankRow) :
  rankQtySum rows = rankQtySum (firstn n rows) + rankQtySum (skipn n rows).
Proof.
  rewrite <- (firstn_skipn n rows) at 1.
  rewrite !rankQtySum_zsum, map_app. apply zsum_app.
Qed.

Lemma rankValueSum_split (n : nat) (rows : list RankRow) :
  (rankValueSum rows == rankValueSum (firstn n rows) + rankValueSum (skipn n rows))%Q.
Proof.
  rewrite <- (firstn_skipn n rows) at 1.
  rewrite !rankValueSum_qsum, map_app.
  induction (map rowValue (firstn n rows)) as [|x l IH]; simpl.
  - ring.
  - rewrite IH. ring.
Qed.

(** The accounting of one partition [ms] (the entries or the exits). *)
Lemma topByProduct_accounting (products : list Product) (ms : list Movement) :
  sumQuantity ms
  = rankQtySum (topByProduct products ms)
    + rankQtySum (skipn 10 (rankByProduct products ms))
    + sumQuantity
        (filter (fun m => negb (isSome (findProduct products (productId m)))) ms)
  /\ (sumValue products ms
      == rankValueSum (topByProduct products ms)
         + rankValueSum (skipn 10 (rankByProduct products ms)))%Q.
Proof.
  unfold topByProduct, slice0. split.
  - rewrite <- (rankQtySum_split 10), rankByProduct_qty.
    apply (sumQuantity_partition
             (fun m => isSome (findProduct products (productId m)))).
  - rewrite <- (rankValueSum_split 10).
    rewrite (rankValueSum_perm (rankByProduct_perm products ms)).
    symmetry. apply rankRows_value.
Qed.

(** C1 (amended).  For every filtered movement set [fl] and each side
    on its own: [totalExitQty] is the sum of the exit ranking's totals,
    plus the totals of the rows that [.slice(0, 10)] cuts off, plus the
    quantities of the exits whose product is not in the catalog (and
    likewise [totalEntryQty] for the entries).  So the exit ranking adds
    up to [totalExitQty] as soon as the exit ranking has at most ten
    rows before the slice and every exit refers to a catalog product,
    whatever the entries are, and the same for the entries whatever the
    exits are.  For the monetary value,
    in exact arithmetic (no rounding of the doubles the code computes
    with), [exitValue] is the value of the ranking rows plus the value
    of the rows cut off, because a movement of a missing product is
    priced 0; with at most ten rows the ranking value is [exitValue]. *)
Theorem conservation_of_totals (products : list Product) (fl : list Movement) :
  (totalExitQty fl
   = rankQtySum (topExitByProduct products fl)
     + rankQtySum (skipn 10 (rankByProduct products (exits fl)))
     + sumQuantity
         (filter (fun m => negb (isSome (findProduct products (productId m))))
            (exits fl)))
  /\ (totalEntryQty fl
      = rankQtySum (topEntryByProduct products fl)
        + rankQtySum (skipn 10 (rankByProduct products (entries fl)))
        + sumQuantity
            (filter (fun m => negb (isSome (findProduct products (productId m))))
               (entries fl)))
  /\ ((length (rankByProduct products (exits fl)) <= 10)%nat ->
      (forall m, In m (exits fl) -> findProduct products (productId m) <> None) ->
      rankQtySum (topExitByProduct products fl) = totalExitQty fl)
  /\ ((length (rankByProduct products (entries fl)) <= 10)%nat ->
      (forall m, In m (entries fl) -> findProduct products (productId m) <> None) ->
      rankQtySum (topEntryByProduct products fl) = totalEntryQty fl)
  /\ (exitValue products fl
      == rankValueSum (topExitByProduct products fl)
         + rankValueSum (skipn 10 (rankByProduct products (exits fl))))%Q
  /\ (entryValue products fl
      == rankValueSum (topEntryByProduct products fl)
         + rankValueSum (skipn 10 (rankByProduct products (entries fl))))%Q
  /\ ((length (rankByProduct products (exits fl)) <= 10)%nat ->
      (rankValueSum (topExitByProduct products fl) == exitValue products fl)%Q)
  /\ ((length (rankByProduct products (entries fl)) <= 10)%nat ->
      (rankValueSum (topEntryByProduct products fl) == entryValue products fl)%Q).
Proof.
  unfold topExitByProduct, topEntryByProduct, exitValue, entryValue,
    totalExitQty, totalEntryQty.
  destruct (topByProduct_accounting products (exits fl)) as [Hxq Hxv].
  destruct (topByProduct_accounting products (entries fl)) as [Heq Hev].
  split; [exact Hxq|]. split; [exact Heq|].
  split; [intros; now apply topByProduct_qty|].
  split; [intros; now apply topByProduct_qty|].
  split; [exact Hxv|]. split; [exact Hev|].
  split; intros; now apply topByProduct_value.
Qed.

Lemma conservation_of_totals_witness :
  let products := [sampleProduct "p1" 50 2; sampleProduct "p2" 10 (5 # 2)] in
  let fl := [sampleMovement "p1" Exit 5 3; sampleMovement "gone" Entry 4 2;
             sampleMovement "p1" Exit 7 1; sampleMovement "p2" Exit 9 0] in
  rankQtySum (topExitByProduct products fl) = totalExitQty fl
  /\ (rankValueSum (topExitByProduct products fl) == exitValue products fl)%Q
  /\ (rankValueSum (topEntryByProduct products fl) == entryValue products fl)%Q.
Proof.
  intros products fl.
  destruct (conservation_of_totals products fl)
    as [_ [_ [Hxq [_ [_ [_ [Hxv Hev]]]]]]].
  split; [|split].
  - apply Hxq.
    + vm_compute. lia.
    + intros m [<-|[<-|[<-|[]]]]; vm_compute; discriminate.
  - apply Hxv. vm_compute. lia.
  - apply Hev. vm_compute. lia.
Defined.

(** At most ten distinct products in the movements is enough for the
    slice to drop nothing. *)
Lemma conservation_ten_products (products : list Product) (fl : list Movement)
    (ids : list string) :
  (length ids <= 10)%nat ->
  (forall m, In m fl -> In (productId m) ids) ->
  (forall m, In m fl -> findProduct products (productId m) <> None) ->
  rankQtySum (topExitByProduct products fl) = totalExitQty fl
  /\ rankQtySum (topEntryByProduct products fl) = totalEntryQty fl.
Proof.
  intros Hlen Hids Hcat.
  unfold topExitByProduct, topEntryByProduct, totalExitQty, totalEntryQty.
  split; apply topByProduct_qty.
  - eapply Nat.le_trans; [apply (rankByProduct_length products (exits fl) ids)|exact Hlen].
    intros m Hm. apply Hids. unfold exits in Hm. now apply filter_In in Hm.
  - intros m Hm. apply Hcat. unfold exits in Hm. now apply filter_In in Hm.
  - eapply Nat.le_trans; [apply (rankByProduct_length products (entries fl) ids)|exact Hlen].
    intros m Hm. apply Hids. unfold entries in Hm. now apply filter_In in Hm.
  - intros m Hm. apply Hcat. unfold entries in Hm. now apply filter_In in Hm.
Qed.

(* ================================================================== *)
(** * Shape of the rankings (C2)                                      *)
(* ================================================================== *)

Lemma isSome_obj_get {V : Type} (o : JsObject V) (k : string) :
  isSome (obj_get o k) = existsb (String.eqb k) (keysOf o).
Proof.
  induction o as [|[k0 v0] o IH]; simpl.
  - reflexivity.
  - rewrite (String.eqb_sym k k0).
    destruct (String.eqb k0 k); simpl; [reflexivity | exact IH].
Qed.

Lemma accumulateQty_keys_from (ms : list Movement) (o : JsObject Z) :
  keysOf (fold_left addQuantity ms o)
  = fold_left (fun acc id => if existsb (String.eqb id) acc then acc else acc ++ [id])
      (map productId ms) (keysOf o).
Proof.
  revert o. induction ms as [|m ms IH]; intros o; simpl.
  - reflexivity.
  - rewrite IH. unfold addQuantity. rewrite keysOf_set, isSome_obj_get. reflexivity.
Qed.

Lemma accumulateQty_keys (ms : list Movement) :
  keysOf (accumulateQty ms) = firstOccurrences (map productId ms).
Proof. apply (accumulateQty_keys_from ms []). Qed.

Lemma JsObject_tabulate {V : Type} (o : JsObject V) (f : string -> V) :
  (forall k v, In (k, v) o -> v = f k) ->
  o = map (fun k => (k, f k)) (keysOf o).
Proof.
  induction o as [|[k v] o IH]; simpl; intros H.
  - reflexivity.
  - rewrite <- IH by (intros; apply H; now right).
    now rewrite <- (H k v (or_introl eq_refl)).
Qed.

(** For identifiers that are not array indices the rows are enumerated
    in order of first occurrence in the movement list. *)
Lemma rankRows_plain (products : list Product) (ms : list Movement) :
  (forall m, In m ms -> arrayIndex (productId m) = None) ->
  rankRows products ms
  = filter (fun x => isSome (row_product x))
      (map (fun id => {| row_product := findProduct products id;
                         qty := sumQuantity (movementsOf id ms) |})
         (firstOccurrences (map productId ms))).
Proof.
  intros Hplain. unfold rankRows.
  rewrite Object_entries_plain.
  - rewrite (JsObject_tabulate (accumulateQty ms)
               (fun id => sumQuantity (movementsOf id ms))) at 1.
    + rewrite map_map, accumulateQty_keys. reflexivity.
    + intros k v H. now apply accumulateQty_In in H.
  - intros k Hk. apply obj_get_In_keys in Hk.
    rewrite accumulateQty_get in Hk.
    destruct (hasMovement k ms) eqn:E; [|congruence].
    apply hasMovement_true in E. destruct E as [m [Hm <-]]. now apply Hplain.
Qed.

Lemma StronglySorted_firstn_skipn {A : Type} (R : A -> A -> Prop) (n : nat)
    (l : list A) (x y : A) :
  StronglySorted R l -> In x (firstn n l) -> In y (skipn n l) -> R x y.
Proof.
  intros H. revert n. induction H as [|a l Hs IH Hall]; intros [|n]; simpl;
    try tauto.
  intros [<-|Hx] Hy.
  - rewrite Forall_forall in Hall. apply Hall.
    rewrite <- (firstn_skipn n l). apply in_or_app. now right.
  - now apply (IH n).
Qed.

(** C2, as stated, fails: with eleven catalog products that all have
    entries, the ranking has ten rows and product ["pk"] has none; the
    truncation is done by the aggregator itself. *)
Lemma ranking_truncated_counterexample :
  hasMovement "pk" (entries (elevenMovements Entry)) = true
  /\ isSome (findProduct elevenProducts "pk") = true
  /\ length (topEntryByProduct elevenProducts (elevenMovements Entry)) = 10%nat
  /\ forallb
       (fun r => negb (String.eqb (nullish (option_map prod_id (row_product r)) EmptyString) "pk"))
       (topEntryByProduct elevenProducts (elevenMovements Entry)) = true.
Proof. repeat split; vm_compute; reflexivity. Qed.

(** Identifiers that are array indices are enumerated in numeric order,
    not in order of first occurrence. *)
Example ranking_tie_numeric_ids :
  map (fun r => option_map prod_id (row_product r))
    (topEntryByProduct [sampleProduct "2" 1 1; sampleProduct "1" 1 1]
       [sampleMovement "2" Entry 4 0; sampleMovement "1" Entry 4 0])
  = [Some "1"; Some "2"].
Proof. vm_compute. reflexivity. Qed.

(** C2 (amended).  [topEntryByProduct] and [topExitByProduct] are
    [topByProduct] on the entries and on the exits.  The ranking is the
    first ten rows of the list [full] that has exactly one row for every
    catalog product with movements in the partition, carrying the summed
    quantity; [full] is sorted by descending quantity, rows of equal
    quantity keep the order of [Object.entries] on the accumulation map,
    which for identifiers that are not array indices is the order of
    first occurrence in the movement list; no dropped row has a larger
    quantity than a kept one; with at most ten rows nothing is dropped. *)
Theorem ranking_sorted_top_ten (products : list Product) (ms : list Movement) :
  let full := rankByProduct products ms in
  let top := topByProduct products ms in
  top = firstn 10 full
  /\ (length top <= 10)%nat
  /\ ((length full <= 10)%nat -> top = full)
  /\ (forall r, In r full <->
        exists id p,
          hasMovement id ms = true /\ findProduct products id = Some p /\
          r = {| row_product := Some p; qty := sumQuantity (movementsOf id ms) |})
  /\ NoDup (map (fun r => option_map prod_id (row_product r)) full)
  /\ Permutation full (rankRows products ms)
  /\ StronglySorted (fun a b => qty b <= qty a) full
  /\ StronglySorted (fun a b => qty b <= qty a) top
  /\ (forall r r', In r top -> In r' (skipn 10 full) -> qty r' <= qty r)
  /\ (forall q, filter (fun r => qty r =? q) full
                = filter (fun r => qty r =? q) (rankRows products ms))
  /\ ((forall m, In m ms -> arrayIndex (productId m) = None) ->
      rankRows products ms
      = filter (fun x => isSome (row_product x))
          (map (fun id => {| row_product := findProduct products id;
                             qty := sumQuantity (movementsOf id ms) |})
             (firstOccurrences (map productId ms)))).
Proof.
  intros full top.
  assert (Hsorted : StronglySorted (fun a b => qty b <= qty a) full)
    by apply jsSortZ_desc_sorted.
  split; [reflexivity|].
  split; [apply firstn_le_length|].
  split; [apply topByProduct_full|].
  split; [apply rankByProduct_In|].
  split; [apply rankByProduct_NoDup|].
  split; [apply rankByProduct_perm|].
  split; [exact Hsorted|].
  split; [now apply StronglySorted_firstn|].
  split.
  { intros r r' Hr Hr'.
    exact (@StronglySorted_firstn_skipn _ (fun a b => qty b <= qty a) 10%nat
             full r r' Hsorted Hr Hr'). }
  split; [intros q; apply jsSortZ_desc_stable|].
  apply rankRows_plain.
Qed.

Lemma ranking_sorted_top_ten_witness :
  let products := [sampleProduct "p1" 50 2; sampleProduct "p2" 10 (5 # 2)] in
  let ms := [sampleMovement "p2" Entry 4 2; sampleMovement "gone" Entry 9 1;
             sampleMovement "p1" Entry 4 0] in
  topByProduct products ms = rankByProduct products ms
  /\ map (fun r => option_map prod_id (row_product r)) (rankRows products ms)
     = [Some "p2"; Some "p1"].
Proof.
  intros products ms.
  destruct (ranking_sorted_top_ten products ms)
    as [_ [_ [Hfull [_ [_ [_ [_ [_ [_ [_ Hplain]]]]]]]]]].
  split.
  - apply Hfull. vm_compute. lia.
  - rewrite Hplain.
    + vm_compute. reflexivity.
    + intros m [<-|[<-|[<-|[]]]]; vm_compute; reflexivity.
Defined.

(* ================================================================== *)
(** * Period filter (C3, C7)                                          *)
(* ================================================================== *)

Lemma filter_absorb {A : Type} (f g : A -> bool) (l : list A) :
  (forall x, In x l -> f x = true -> g x = true) ->
  filter g (filter f l) = filter f l.
Proof.
  intros H. induction l as [|x l IH]; simpl.
  - reflexivity.
  - assert (IH' : filter g (filter f l) = filter f l)
      by (apply IH; intros y Hy; apply H; now right).
    destruct (f x) eqn:E; simpl; [|exact IH'].
    rewrite (H x (or_introl eq_refl) E). now rewrite IH'.
Qed.

Lemma filter_narrow {A : Type} (f g : A -> bool) (l : list A) :
  (forall x, In x l -> f x = true -> g x = true) ->
  filter f (filter g l) = filter f l.
Proof.
  intros H. induction l as [|x l IH]; simpl.
  - reflexivity.
  - assert (IH' : filter f (filter g l) = filter f l)
      by (apply IH; intros y Hy; apply H; now right).
    destruct (g x) eqn:E; simpl.
    + now rewrite IH'.
    + destruct (f x) eqn:E'; [|exact IH'].
      rewrite (H x (or_introl eq_refl) E') in E. discriminate.
Qed.

Lemma filterByPeriod_In (host : Host) (M : list Movement) (p : Period) (m : Movement) :
  p <> Pall ->
  (In m (filterByPeriod host M p) <-> In m M /\ cutoffOf host p <= createdAt m).
Proof.
  intros Hp. destruct p; try contradiction; simpl;
    rewrite filter_In, Z.leb_le; reflexivity.
Qed.

Lemma cutoffOf_ordered (host : Host) (p p' : Period) :
  calendarOrdered (zone host) ->
  p <> Pall -> p' <> Pall -> widerOrEqual p' p ->
  cutoffOf host p' <= cutoffOf host p.
Proof.
  intros Hcal Hp Hp' Hw. unfold cutoffOf, setDateBack. apply Hcal.
  unfold widerOrEqual in Hw.
  destruct p, p'; simpl in *; try contradiction; lia.
Qed.

Lemma filterByPeriod_eq (host : Host) (M : list Movement) (p : Period) :
  p <> Pall ->
  filterByPeriod host M p = filter (fun m => cutoffOf host p <=? createdAt m) M.
Proof. destruct p; try contradiction; reflexivity. Qed.

Lemma Period_eq_dec (p q : Period) : {p = q} + {p <> q}.
Proof. decide equality. Defined.

Lemma filterByPeriod_wider (host : Host) (M : list Movement) (p p' : Period) :
  calendarOrdered (zone host) -> widerOrEqual p' p ->
  filterByPeriod host (filterByPeriod host M p) p' = filterByPeriod host M p
  /\ filterByPeriod host (filterByPeriod host M p') p = filterByPeriod host M p.
Proof.
  intros Hcal Hw.
  destruct (Period_eq_dec p' Pall) as [->|Hp'].
  - split; reflexivity.
  - assert (Hp : p <> Pall).
    { intros ->. unfold widerOrEqual in Hw. destruct p'; simpl in Hw; try lia.
      contradiction. }
    pose proof (@cutoffOf_ordered host p p' Hcal Hp Hp' Hw) as Hcut.
    rewrite !(@filterByPeriod_eq host _ p Hp), !(@filterByPeriod_eq host _ p' Hp').
    split; [apply filter_absorb | apply filter_narrow];
      intros m _ H; apply Z.leb_le in H; apply Z.leb_le; lia.
Qed.

(** A later reading of the clock only narrows the window: filtering an
    earlier result again gives what filtering the input now gives. *)
Lemma filterByPeriod_later_clock (host1 host2 : Host) (M : list Movement) (p : Period) :
  cutoffOf host1 p <= cutoffOf host2 p ->
  filterByPeriod host2 (filterByPeriod host1 M p) p = filterByPeriod host2 M p.
Proof.
  intros Hle. destruct (Period_eq_dec p Pall) as [->|Hp]; [reflexivity|].
  rewrite !(@filterByPeriod_eq host2 _ p Hp), (@filterByPeriod_eq host1 _ p Hp).
  apply filter_narrow. intros m _ H. apply Z.leb_le in H. apply Z.leb_le. lia.
Qed.

Lemma fixedZone_calendarOrdered (offset : Z) : calendarOrdered (fixedZone offset).
Proof.
  intros t d1 d2 H. simpl. unfold MS_PER_DAY. lia.
Qed.

(** In a zone of constant offset the cutoff is exactly [days] times
    24 hours before the clock reading. *)
Lemma cutoffOf_fixedZone (offset now : Z) (p : Period) :
  cutoffOf {| zone := fixedZone offset; wallClock := now |} p
  = now - windowDays p * MS_PER_DAY.
Proof. unfold cutoffOf, setDateBack. simpl. lia. Qed.

(** C7.  For one reading of the clock ([host]) in a zone where calendar
    days are ordered: the period filter is idempotent, filtering a
    result again with a wider period changes nothing, the windows are
    nested 7d within 30d within 90d within all, [all] returns its input,
    and a movement is retained exactly when [createdAt >= cutoff]
    (inclusive), the cutoff being the clock reading moved back by the
    window's days on the local calendar. *)
Theorem period_filter_algebra (host : Host) (M : list Movement) :
  calendarOrdered (zone host) ->
  (forall p, filterByPeriod host (filterByPeriod host M p) p = filterByPeriod host M p)
  /\ (forall p p', widerOrEqual p' p ->
        filterByPeriod host (filterByPeriod host M p) p' = filterByPeriod host M p)
  /\ incl (filterByPeriod host M P7d) (filterByPeriod host M P30d)
  /\ incl (filterByPeriod host M P30d) (filterByPeriod host M P90d)
  /\ incl (filterByPeriod host M P90d) (filterByPeriod host M Pall)
  /\ filterByPeriod host M Pall = M
  /\ (forall p m, p <> Pall ->
        (In m (filterByPeriod host M p)
         <-> In m M /\ cutoffOf host p <= createdAt m))
  /\ (forall p, cutoffOf host p
                = UTC (zone host)
                    (LocalTime (zone host) (wallClock host) - windowDays p * MS_PER_DAY)).
Proof.
  intros Hcal.
  assert (Hw : forall p p', widerOrEqual p' p ->
             filterByPeriod host (filterByPeriod host M p) p' = filterByPeriod host M p)
    by (intros p p' H; now apply filterByPeriod_wider).
  assert (Hn : forall p p', widerOrEqual p' p ->
             incl (filterByPeriod host M p) (filterByPeriod host M p')).
  { intros p p' H m Hm.
    destruct (@filterByPeriod_wider host M p p' Hcal H) as [_ E].
    rewrite <- E in Hm.
    destruct p; simpl in Hm; try (now apply filter_In in Hm).
    unfold widerOrEqual in H. destruct p'; simpl in H; try lia. exact Hm. }
  split; [intros p; apply Hw; unfold widerOrEqual; lia|].
  split; [exact Hw|].
  split; [apply Hn; unfold widerOrEqual; simpl; lia|].
  split; [apply Hn; unfold widerOrEqual; simpl; lia|].
  split; [apply Hn; unfold widerOrEqual; simpl; lia|].
  split; [reflexivity|].
  split; [intros p m Hp; now apply filterByPeriod_In|].
  reflexivity.
Qed.

Lemma period_filter_algebra_witness :
  let host := utcHost (100 * MS_PER_DAY) in
  let M := [sampleMovement "p1" Exit 1 (93 * MS_PER_DAY);
            sampleMovement "p2" Exit 1 (92 * MS_PER_DAY);
            sampleMovement "p3" Entry 1 (50 * MS_PER_DAY);
            sampleMovement "p4" Entry 1 (5 * MS_PER_DAY)] in
  filterByPeriod host (filterByPeriod host M P7d) P7d = filterByPeriod host M P7d
  /\ incl (filterByPeriod host M P7d) (filterByPeriod host M P30d)
  /\ In (sampleMovement "p1" Exit 1 (93 * MS_PER_DAY)) (filterByPeriod host M P7d).
Proof.
  intros host M.
  destruct (@period_filter_algebra host M (fixedZone_calendarOrdered 0))
    as [Hidem [_ [H7 [_ [_ [_ [Hin _]]]]]]].
  split; [apply Hidem|]. split; [exact H7|].
  apply Hin; [discriminate|]. split.
  - left. reflexivity.
  - vm_compute. discriminate.
Defined.

(** C3, as stated, fails: [filterByPeriod(movements, period)] has no
    parameter for the current time and reads the clock through
    [new Date()], so two runs on the same arguments differ when the clock
    has advanced past a movement's window. *)
Lemma filter_reads_clock_counterexample :
  let movements := [sampleMovement "p1" Exit 1 (10 * MS_PER_DAY)] in
  filterByPeriod (utcHost (12 * MS_PER_DAY)) movements P7d = movements
  /\ filterByPeriod (utcHost (20 * MS_PER_DAY)) movements P7d = []
  /\ filterByPeriod (utcHost (12 * MS_PER_DAY)) movements P7d
     <> filterByPeriod (utcHost (20 * MS_PER_DAY)) movements P7d.
Proof. repeat split; vm_compute; try reflexivity; discriminate. Qed.

(** C3 (amended).  The report is a function of its arguments and of the
    clock reading and zone of the host.  The host enters only through the
    period filter: with period [all] the filter ignores it; for a window,
    two hosts give the same filtered list exactly when they classify
    every movement alike against their cutoffs; and hosts that filter
    alike assemble the same report. *)
Theorem report_host_dependence (host1 host2 : Host) (tab : ReportTab)
    (period : Period) (selectedProductIds : list string)
    (movements : list Movement) (products : list Product)
    (categories : list Category) :
  filterByPeriod host1 movements Pall = filterByPeriod host2 movements Pall
  /\ (period <> Pall ->
      (filterByPeriod host1 movements period = filterByPeriod host2 movements period
       <-> forall m, In m movements ->
             (cutoffOf host1 period <=? createdAt m)
             = (cutoffOf host2 period <=? createdAt m)))
  /\ (filterByPeriod host1 movements period = filterByPeriod host2 movements period ->
      assembleReport host1 tab period selectedProductIds movements products categories
      = assembleReport host2 tab period selectedProductIds movements products categories).
Proof.
  split; [reflexivity|]. split.
  - intros Hp. rewrite !(@filterByPeriod_eq _ _ period Hp).
    apply filter_ext_in_iff.
  - intros H. unfold assembleReport, filtered. rewrite H. reflexivity.
Qed.

Lemma report_host_dependence_witness :
  let movements := [sampleMovement "p1" Exit 1 (10 * MS_PER_DAY)] in
  let products := [sampleProduct "p1" 50 2] in
  assembleReport (utcHost (12 * MS_PER_DAY)) TabExits P7d [] movements products []
  = assembleReport (utcHost (13 * MS_PER_DAY)) TabExits P7d [] movements products [].
Proof.
  intros movements products.
  destruct (report_host_dependence (utcHost (12 * MS_PER_DAY))
              (utcHost (13 * MS_PER_DAY)) TabExits P7d [] movements products [])
    as [_ [Hiff Hrep]].
  apply Hrep. apply Hiff; [discriminate|].
  intros m [<-|[]]. vm_compute. reflexivity.
Defined.

(* ================================================================== *)
(** * Consumption analysis                                            *)
(* ================================================================== *)

Lemma exitsBy_get (ms : list Movement) (o : JsObject ExitData) (id : string) :
  obj_get (fold_left recordExit ms o) id
  = if isSome (obj_get o id) || hasMovement id ms
    then
      let cur := nullish (obj_get o id) {| total := 0; dates := [] |} in
      Some {| total := total cur + zsum (map quantity (movementsOf id ms));
              dates := dates cur ++ map createdAt (movementsOf id ms) |}
    else None.
Proof.
  revert o. induction ms as [|m ms IH]; intros o; simpl.
  - destruct (obj_get o id) as [[t ds]|]; simpl; [|reflexivity].
    rewrite app_nil_r, Z.add_0_r. reflexivity.
  - rewrite IH. unfold recordExit.
    destruct (String.eqb (productId m) id) eqn:E.
    + apply String.eqb_eq in E. rewrite E.
      rewrite obj_get_set_same. simpl.
      rewrite orb_true_r, <- app_assoc. simpl. do 2 f_equal. lia.
    + apply String.eqb_neq in E.
      rewrite obj_get_set_other by exact E. simpl. reflexivity.
Qed.

Lemma exitsBy_NoDup (ms : list Movement) (o : JsObject ExitData) :
  NoDup (keysOf o) -> NoDup (keysOf (fold_left recordExit ms o)).
Proof.
  revert o. induction ms as [|m ms IH]; intros o Hnd; simpl.
  - exact Hnd.
  - apply IH. now apply obj_set_NoDup.
Qed.


Lemma exitsByProduct_get (exits : list Movement) (id : string) :
  obj_get (exitsByProduct exits) id
  = if hasMovement id exits then Some (dataOf id exits) else None.
Proof.
  unfold exitsByProduct. rewrite exitsBy_get. simpl.
  unfold dataOf. now rewrite sumQuantity_zsum.
Qed.

Lemma exitsByProduct_NoDup (exits : list Movement) :
  NoDup (keysOf (exitsByProduct exits)).
Proof. apply exitsBy_NoDup. constructor. Qed.

Lemma exitsByProduct_In (exits : list Movement) (id : string) (data : ExitData) :
  In (id, data) (Object_entries (exitsByProduct exits))
  <-> hasMovement id exits = true /\ data = dataOf id exits.
Proof.
  rewrite Object_entries_In, obj_get_In by apply exitsByProduct_NoDup.
  rewrite exitsByProduct_get.
  destruct (hasMovement id exits).
  - split; [intros H; split; congruence | intros [_ ->]; reflexivity].
  - split; [discriminate | intros [H _]; discriminate].
Qed.

Lemma consumptionData_In (products : list Product) (categories : list Category)
    (period : Period) (exits : list Movement) (e : ConsumptionEntry) :
  In e (consumptionData products categories period exits)
  <-> exists id,
        hasMovement id exits = true /\
        consumptionRow products categories period (id, dataOf id exits) = Some e.
Proof.
  unfold consumptionData. rewrite jsSortZ_In, filterBoolean_In, in_map_iff. split.
  - intros [[id data] [Hrow Hin]]. apply exitsByProduct_In in Hin.
    destruct Hin as [Hhas ->]. eauto.
  - intros [id [Hhas Hrow]]. exists (id, dataOf id exits). split; [exact Hrow|].
    apply exitsByProduct_In. auto.
Qed.

(** The fields of a row, read off the callback. *)
Lemma consumptionRow_fields (products : list Product) (categories : list Category)
    (period : Period) (id : string) (data : ExitData) (e : ConsumptionEntry) :
  consumptionRow products categories period (id, data) = Some e ->
  findProduct products id = Some (product e)
  /\ totalConsumed e = total data
  /\ movCount e = length (dates data)
  /\ dailyAvg e
     = (inject_Z (total data) / inject_Z (Z.max (actualDays period (dates data)) 1))%Q
  /\ monthlyProjection e = (dailyAvg e * 30)%Q
  /\ daysUntilEmpty e
     = (if Qlt_le_dec 0 (dailyAvg e)
        then Some (Math_round (inject_Z (prod_quantity (product e)) / dailyAvg e))
        else None)
  /\ status e = statusOf (daysUntilEmpty e)
  /\ costProjection e = (monthlyProjection e * price (product e))%Q.
Proof.
  unfold consumptionRow. simpl.
  destruct (findProduct products id) as [p|]; [|discriminate].
  intros H. inversion H; subst; clear H. simpl. repeat split.
Qed.

(** ** Urgency (C4) *)

Lemma statusOf_spec (d : option Z) :
  (statusOf d = critical <-> exists n, d = Some n /\ n <= 7)
  /\ (statusOf d = warning <-> exists n, d = Some n /\ 7 < n <= 30)
  /\ (statusOf d = ok <-> d = None \/ exists n, d = Some n /\ 30 < n).
Proof.
  destruct d as [n|]; simpl.
  - destruct (n <=? 7) eqn:E7; [apply Z.leb_le in E7 | apply Z.leb_gt in E7].
    + repeat split; try discriminate; eauto.
      * intros [m [H ?]]. inversion H; subst. lia.
      * intros [H | [m [H ?]]]; [discriminate | inversion H; subst; lia].
    + destruct (n <=? 30) eqn:E30; [apply Z.leb_le in E30 | apply Z.leb_gt in E30].
      * repeat split; try discriminate; eauto.
        -- intros [m [H ?]]. inversion H; subst. lia.
        -- intros [H | [m [H ?]]]; [discriminate | inversion H; subst; lia].
      * repeat split; try discriminate; eauto.
        -- intros [m [H ?]]. inversion H; subst. lia.
        -- intros [m [H ?]]. inversion H; subst. lia.
  - repeat split; try discriminate; auto.
    + intros [m [H ?]]. discriminate.
    + intros [m [H ?]]. discriminate.
Qed.

(** C4.  Every entry of [consumptionData] is [critical] exactly when
    [daysUntilEmpty] is a number at most 7, [warning] exactly when it is
    a number above 7 and at most 30, and [ok] otherwise (null, or above
    30); so 7 gives [critical], 8 gives [warning] and 31 gives [ok]. *)
Theorem urgency_thresholds (products : list Product) (categories : list Category)
    (period : Period) (exits : list Movement) (e : ConsumptionEntry) :
  In e (consumptionData products categories period exits) ->
  (status e = critical <-> exists d, daysUntilEmpty e = Some d /\ d <= 7)
  /\ (status e = warning <-> exists d, daysUntilEmpty e = Some d /\ 7 < d <= 30)
  /\ (status e = ok <->
      daysUntilEmpty e = None \/ exists d, daysUntilEmpty e = Some d /\ 30 < d)
  /\ (daysUntilEmpty e = Some 7 -> status e = critical)
  /\ (daysUntilEmpty e = Some 8 -> status e = warning)
  /\ (daysUntilEmpty e = Some 31 -> status e = ok).
Proof.
  intros Hin. apply consumptionData_In in Hin. destruct Hin as [id [_ Hrow]].
  apply consumptionRow_fields in Hrow.
  destruct Hrow as [_ [_ [_ [_ [_ [_ [Hst _]]]]]]].
  rewrite Hst.
  destruct (statusOf_spec (daysUntilEmpty e)) as [H1 [H2 H3]].
  repeat split; try apply H1; try apply H2; try apply H3;
    intros ->; reflexivity.
Qed.

Example urgency_boundaries :
  map (fun e => (daysUntilEmpty e, status e)) (boundaryEntries 70)
    = [(Some 7, critical)]
  /\ map (fun e => (daysUntilEmpty e, status e)) (boundaryEntries 80)
    = [(Some 8, warning)]
  /\ map (fun e => (daysUntilEmpty e, status e)) (boundaryEntries 300)
    = [(Some 30, warning)]
  /\ map (fun e => (daysUntilEmpty e, status e)) (boundaryEntries 310)
    = [(Some 31, ok)].
Proof. repeat split; vm_compute; reflexivity. Qed.

Lemma urgency_thresholds_witness :
  exists e, In e (boundaryEntries 70)
            /\ daysUntilEmpty e = Some 7 /\ status e = critical.
Proof.
  assert (H : exists e, In e (boundaryEntries 70) /\ daysUntilEmpty e = Some 7).
  { vm_compute. eexists. split; [left; reflexivity | reflexivity]. }
  destruct H as [e [He Hd]]. exists e.
  destruct (@urgency_thresholds _ _ _ _ e He) as [_ [_ [_ [H7 _]]]].
  split; [exact He | split; [exact Hd | exact (H7 Hd)]].
Defined.

(** ** Membership (C6) *)

Lemma consumptionRow_keys (products : list Product) (categories : list Category)
    (period : Period) (l : list (string * ExitData)) :
  map (fun e => prod_id (product e))
    (filterBoolean (map (consumptionRow products categories period) l))
  = filter (fun k => isSome (findProduct products k)) (map fst l).
Proof.
  induction l as [|[k d] l IH]; simpl.
  - reflexivity.
  - unfold consumptionRow at 1. simpl.
    destruct (findProduct products k) as [p|] eqn:E; simpl.
    + rewrite IH. apply findProduct_id in E. destruct E as [-> _]. reflexivity.
    + exact IH.
Qed.

Lemma consumptionData_NoDup (products : list Product) (categories : list Category)
    (period : Period) (exits : list Movement) :
  NoDup (map (fun e => prod_id (product e))
           (consumptionData products categories period exits)).
Proof.
  unfold consumptionData.
  eapply Permutation_NoDup.
  - apply Permutation_sym, Permutation_map, jsSortZ_perm.
  - rewrite consumptionRow_keys. apply NoDup_filter.
    eapply Permutation_NoDup.
    + apply Permutation_sym, Permutation_map, Object_entries_perm.
    + apply exitsByProduct_NoDup.
Qed.

Lemma hasMovement_exits (id : string) (fl : list Movement) :
  hasMovement id (exits fl) = true
  <-> exists m, In m fl /\ type m = Exit /\ productId m = id.
Proof.
  rewrite hasMovement_true. unfold exits. split.
  - intros [m [Hm E]]. apply filter_In in Hm. destruct Hm as [Hm Hx].
    exists m. repeat split; auto.
    unfold isExit in Hx. destruct (type m); [discriminate | reflexivity].
  - intros [m [Hm [Ht E]]]. exists m. split; [|exact E].
    apply filter_In. split; [exact Hm|]. unfold isExit. now rewrite Ht.
Qed.

(** C6.  For a filtered set [fl], the consumption analysis has an entry
    for product [id] exactly when [fl] contains an exit of [id] and the
    catalog contains a product [id]; the entry carries the catalog
    product found for [id], and no product has two entries.  Hence a
    product without exits in [fl], or one deleted from the catalog, has
    no entry. *)
Theorem consumption_membership (products : list Product)
    (categories : list Category) (period : Period) (fl : list Movement) :
  (forall id,
     (exists e, In e (consumptionData products categories period (exits fl))
                /\ prod_id (product e) = id)
     <-> (exists m, In m fl /\ type m = Exit /\ productId m = id)
         /\ (exists p, In p products /\ prod_id p = id))
  /\ (forall e, In e (consumptionData products categories period (exits fl)) ->
        findProduct products (prod_id (product e)) = Some (product e)
        /\ In (product e) products
        /\ hasMovement (prod_id (product e)) (exits fl) = true)
  /\ NoDup (map (fun e => prod_id (product e))
              (consumptionData products categories period (exits fl))).
Proof.
  assert (Hent : forall e,
             In e (consumptionData products categories period (exits fl)) ->
             findProduct products (prod_id (product e)) = Some (product e)
             /\ In (product e) products
             /\ hasMovement (prod_id (product e)) (exits fl) = true).
  { intros e He. apply consumptionData_In in He. destruct He as [k [Hk Hrow]].
    apply consumptionRow_fields in Hrow. destruct Hrow as [Hfind _].
    destruct (findProduct_id _ _ Hfind) as [Hid Hin].
    rewrite Hid. auto. }
  split; [|split; [exact Hent | apply consumptionData_NoDup]].
  intros id. split.
  - intros [e [He <-]]. destruct (Hent e He) as [_ [Hin Hhas]]. split.
    + now apply hasMovement_exits.
    + eauto.
  - intros [Hex [p [Hp Hid]]].
    apply hasMovement_exits in Hex.
    destruct (findProduct_exists _ _ Hp) as [p' Hfind]. rewrite Hid in Hfind.
    destruct (consumptionRow products categories period (id, dataOf id (exits fl)))
      as [e|] eqn:Hrow.
    + exists e. split.
      * apply consumptionData_In. eauto.
      * apply consumptionRow_fields in Hrow. destruct Hrow as [Hf _].
        rewrite Hfind in Hf. inversion Hf; subst.
        now apply findProduct_id in Hfind.
    + unfold consumptionRow in Hrow. simpl in Hrow. rewrite Hfind in Hrow.
      discriminate.
Qed.

Lemma consumption_membership_witness :
  let products := [sampleProduct "p1" 50 2; sampleProduct "idle" 9 1] in
  let fl := [sampleMovement "p1" Exit 5 3; sampleMovement "idle" Entry 4 2;
             sampleMovement "gone" Exit 9 0] in
  (exists e, In e (consumptionData products [] P30d (exits fl))
             /\ prod_id (product e) = "p1")
  /\ ~ (exists e, In e (consumptionData products [] P30d (exits fl))
                  /\ prod_id (product e) = "idle")
  /\ ~ (exists e, In e (consumptionData products [] P30d (exits fl))
                  /\ prod_id (product e) = "gone").
Proof.
  intros products fl.
  destruct (consumption_membership products [] P30d fl) as [Hiff _].
  split; [|split].
  - apply Hiff. split.
    + exists (sampleMovement "p1" Exit 5 3). repeat split. now left.
    + exists (sampleProduct "p1" 50 2). split; [now left | reflexivity].
  - intros H. apply Hiff in H. destruct H as [[m [Hm [Ht Hid]]] _].
    destruct Hm as [<-|[<-|[<-|[]]]]; discriminate.
  - intros H. apply Hiff in H. destruct H as [_ [p [Hp Hid]]].
    destruct Hp as [<-|[<-|[]]]; discriminate.
Defined.

(** ** Activity span (C5) *)

Lemma fold_min_spec (l : list Z) (a : Z) :
  In (fold_left Z.min l a) (a :: l)
  /\ forall x, In x (a :: l) -> fold_left Z.min l a <= x.
Proof.
  revert a. induction l as [|y l IH]; intros a; simpl.
  - split; [now left | intros x [<-|[]]; lia].
  - destruct (IH (Z.min a y)) as [Hin Hle]. split.
    + destruct Hin as [H|H]; [|now right; right].
      rewrite <- H. destruct (Z.min_spec a y) as [[_ ->]|[_ ->]]; auto.
    + intros x [<-|[<-|Hx]].
      * specialize (Hle (Z.min a y) (or_introl eq_refl)). lia.
      * specialize (Hle (Z.min a y) (or_introl eq_refl)). lia.
      * apply Hle. now right.
Qed.

Lemma fold_max_spec (l : list Z) (a : Z) :
  In (fold_left Z.max l a) (a :: l)
  /\ forall x, In x (a :: l) -> x <= fold_left Z.max l a.
Proof.
  revert a. induction l as [|y l IH]; intros a; simpl.
  - split; [now left | intros x [<-|[]]; lia].
  - destruct (IH (Z.max a y)) as [Hin Hle]. split.
    + destruct Hin as [H|H]; [|now right; right].
      rewrite <- H. destruct (Z.max_spec a y) as [[_ ->]|[_ ->]]; auto.
    + intros x [<-|[<-|Hx]].
      * specialize (Hle (Z.max a y) (or_introl eq_refl)). lia.
      * specialize (Hle (Z.max a y) (or_introl eq_refl)). lia.
      * apply Hle. now right.
Qed.

Lemma minOf_spec (l : list Z) :
  l <> [] -> In (minOf l) l /\ forall x, In x l -> minOf l <= x.
Proof. destruct l as [|a l]; [congruence | intros _; apply fold_min_spec]. Qed.

Lemma maxOf_spec (l : list Z) :
  l <> [] -> In (maxOf l) l /\ forall x, In x l -> x <= maxOf l.
Proof. destruct l as [|a l]; [congruence | intros _; apply fold_max_spec]. Qed.

Lemma sorted_first (s : list Z) :
  StronglySorted Z.le s -> s <> [] ->
  In (nth 0 s 0) s /\ forall x, In x s -> nth 0 s 0 <= x.
Proof.
  intros Hs Hne. destruct s as [|a s]; [congruence|]. simpl.
  inversion Hs as [|? ? _ Hall]; subst. rewrite Forall_forall in Hall.
  split; [now left | intros x [<-|Hx]; [lia | now apply Hall]].
Qed.

Lemma sorted_last (s : list Z) :
  StronglySorted Z.le s -> s <> [] ->
  In (last s 0) s /\ forall x, In x s -> x <= last s 0.
Proof.
  induction 1 as [|a s Hs IH Hall]; intros Hne; [congruence|].
  destruct s as [|b s].
  - simpl. split; [now left | intros x [<-|[]]; lia].
  - assert (Hne' : b :: s <> []) by discriminate.
    destruct (IH Hne') as [Hin Hle].
    change (last (a :: b :: s) 0) with (last (b :: s) 0).
    split; [now right|].
    intros x [<-|Hx]; [|now apply Hle].
    rewrite Forall_forall in Hall.
    specialize (Hall b (or_introl eq_refl)).
    specialize (Hle b (or_introl eq_refl)). lia.
Qed.

Lemma sortDates_sorted (ds : list Z) : StronglySorted Z.le (sortDates ds).
Proof.
  unfold sortDates.
  apply StronglySorted_weaken with (R := fun a b => (fun x : Z => x) a <= (fun x => x) b).
  - auto.
  - apply (jsSortZ_asc_sorted (fun x : Z => x)).
Qed.

Lemma sortDates_first_last (ds : list Z) :
  ds <> [] ->
  nth 0 (sortDates ds) 0 = minOf ds /\ last (sortDates ds) 0 = maxOf ds.
Proof.
  intros Hne.
  assert (Hperm : Permutation (sortDates ds) ds) by apply jsSortZ_perm.
  assert (Hne' : sortDates ds <> []).
  { intros E. rewrite E in Hperm. apply Permutation_nil in Hperm. contradiction. }
  destruct (sorted_first (sortDates_sorted ds) Hne') as [Hf1 Hf2].
  destruct (sorted_last (sortDates_sorted ds) Hne') as [Hl1 Hl2].
  destruct (minOf_spec Hne) as [Hm1 Hm2].
  destruct (maxOf_spec Hne) as [HM1 HM2].
  split; apply Z.le_antisymm.
  - apply Hf2. eapply Permutation_in; [apply Permutation_sym, Hperm | exact Hm1].
  - apply Hm2. eapply Permutation_in; [exact Hperm | exact Hf1].
  - apply HM2. eapply Permutation_in; [exact Hperm | exact Hl1].
  - apply Hl2. eapply Permutation_in; [apply Permutation_sym, Hperm | exact HM1].
Qed.

Lemma daySpan_spec (ds : list Z) :
  ds <> [] ->
  daySpan ds
  = Z.max 1 (Qceiling (inject_Z (maxOf ds - minOf ds) / inject_Z MS_PER_DAY)).
Proof.
  intros Hne. unfold daySpan, Math_ceil.
  destruct (sortDates_first_last Hne) as [-> ->]. reflexivity.
Qed.

Lemma hasMovement_dates (id : string) (exits : list Movement) :
  hasMovement id exits = true -> map createdAt (movementsOf id exits) <> [].
Proof.
  intros H E. apply map_eq_nil in E. apply hasMovement_movementsOf in E.
  congruence.
Qed.

(** C5.  Under the unbounded period, an entry's daily average is its
    total divided by [activeDays = max(1, ceil((last - first) / 1 day))],
    [first] and [last] being the earliest and latest time stamps among
    that product's exits in the set; with a single exit the span is one
    day, the daily average is the exit's quantity and the monthly
    projection thirty times that (10 gives 10 and 300). *)
Theorem activity_span_all_time (products : list Product)
    (categories : list Category) (exits : list Movement) (e : ConsumptionEntry) :
  In e (consumptionData products categories Pall exits) ->
  let own := movementsOf (prod_id (product e)) exits in
  let firstExit := minOf (map createdAt own) in
  let lastExit := maxOf (map createdAt own) in
  let activeDays :=
    Z.max 1 (Qceiling (inject_Z (lastExit - firstExit) / inject_Z MS_PER_DAY)) in
  own <> []
  /\ totalConsumed e = sumQuantity own
  /\ movCount e = length own
  /\ (dailyAvg e == inject_Z (totalConsumed e) / inject_Z activeDays)%Q
  /\ (monthlyProjection e == dailyAvg e * 30)%Q
  /\ (forall m, own = [m] ->
        activeDays = 1
        /\ (dailyAvg e == inject_Z (quantity m))%Q
        /\ (monthlyProjection e == inject_Z (30 * quantity m))%Q).
Proof.
  intros Hin. apply consumptionData_In in Hin. destruct Hin as [id [Hhas Hrow]].
  apply consumptionRow_fields in Hrow.
  destruct Hrow as [Hfind [Htot [Hcnt [Havg [Hmon _]]]]].
  apply findProduct_id in Hfind. destruct Hfind as [Hid _]. rewrite Hid.
  intros own firstExit lastExit activeDays.
  assert (Hne : own <> []).
  { intros E. apply hasMovement_movementsOf in E. congruence. }
  assert (Hdays : Z.max (actualDays Pall (dates (dataOf id exits))) 1 = activeDays).
  { unfold actualDays. simpl.
    rewrite daySpan_spec by now apply hasMovement_dates.
    subst activeDays firstExit lastExit own. lia. }
  rewrite Hdays in Havg.
  assert (Hrate : (dailyAvg e == inject_Z (totalConsumed e) / inject_Z activeDays)%Q).
  { rewrite Havg, Htot. reflexivity. }
  split; [exact Hne|].
  split; [exact Htot|].
  split; [rewrite Hcnt; simpl; apply length_map|].
  split; [exact Hrate|].
  split; [rewrite Hmon; reflexivity|].
  intros m Hm.
  assert (Hone : activeDays = 1).
  { subst activeDays firstExit lastExit. rewrite Hm. simpl.
    rewrite Z.sub_diag. reflexivity. }
  assert (Hq : totalConsumed e = quantity m).
  { rewrite Htot. simpl. fold own. rewrite Hm. reflexivity. }
  split; [exact Hone|].
  assert (Hd : (dailyAvg e == inject_Z (quantity m))%Q).
  { rewrite Hrate, Hone, Hq. unfold Qdiv. change (/ inject_Z 1)%Q with 1%Q. ring. }
  split; [exact Hd|].
  rewrite Hmon, Hd, inject_Z_mult. change (inject_Z 30) with 30%Q. ring.
Qed.

Lemma activity_span_all_time_witness :
  exists e,
    In e (consumptionData [sampleProduct "p1" 50 2] [] Pall
            [sampleMovement "p1" Exit 10 0])
    /\ (dailyAvg e == 10)%Q /\ (monthlyProjection e == 300)%Q.
Proof.
  assert (H : exists e,
             In e (consumptionData [sampleProduct "p1" 50 2] [] Pall
                     [sampleMovement "p1" Exit 10 0])
             /\ prod_id (product e) = "p1").
  { vm_compute. eexists. split; [left; reflexivity | reflexivity]. }
  destruct H as [e [He Hid]]. exists e. split; [exact He|].
  pose proof (@activity_span_all_time _ _ _ e He) as Hspan.
  simpl in Hspan. rewrite Hid in Hspan.
  destruct Hspan as [_ [_ [_ [_ [_ Hsingle]]]]].
  destruct (Hsingle (sampleMovement "p1" Exit 10 0) eq_refl) as [_ [Hd Hm]].
  split; [exact Hd | exact Hm].
Defined.

(** Scenario 1 of the specification: stock 50 at price 2, exits 5, 5, 5
    in a 30-day window. *)
Example scenario_thirty_days :
  map (fun e => (totalConsumed e, movCount e, Qred (dailyAvg e),
                 Qred (monthlyProjection e), daysUntilEmpty e, status e,
                 Qred (costProjection e)))
    (consumptionData [sampleProduct "p1" 50 2] [] P30d
       [sampleMovement "p1" Exit 5 0; sampleMovement "p1" Exit 5 10;
        sampleMovement "p1" Exit 5 20])
  = [(15, 3%nat, (1 # 2)%Q, 15%Q, Some 100, ok, 30%Q)].
Proof. vm_compute. reflexivity. Qed.

(** ** Guarded divisions (C8) *)

Lemma sumQuantity_nonneg (ms : list Movement) :
  (forall m, In m ms -> 0 <= quantity m) -> 0 <= sumQuantity ms.
Proof.
  rewrite sumQuantity_zsum. induction ms as [|m ms IH]; simpl; intros H.
  - lia.
  - assert (0 <= quantity m) by (apply H; now left).
    assert (0 <= zsum (map quantity ms)) by (apply IH; intros; apply H; now right).
    lia.
Qed.

Lemma safeDiv_defined (a b : Q) :
  ~ (b == 0)%Q -> safeDiv a b = Some (a / b)%Q.
Proof.
  intros Hb. unfold safeDiv.
  destruct (Qeq_bool b 0) eqn:E; [|reflexivity].
  apply Qeq_bool_eq in E. contradiction.
Qed.

(** C8.  For every entry of [consumptionData]: the daily average is the
    total divided by a day count that is at least 1, so that division is
    defined; it is non-negative when no exit has a negative quantity;
    [daysUntilEmpty] is null exactly when the daily average is not
    positive, in particular when it is 0; and when it is a number, it is
    the rounded quotient of the stock by a positive daily average, so
    that division is defined too. *)
Theorem rate_division_guarded (products : list Product)
    (categories : list Category) (period : Period) (exits : list Movement)
    (e : ConsumptionEntry) :
  In e (consumptionData products categories period exits) ->
  ((forall m, In m exits -> 0 <= quantity m) -> (0 <= dailyAvg e)%Q)
  /\ ((dailyAvg e == 0)%Q -> daysUntilEmpty e = None)
  /\ (exists days,
        1 <= days
        /\ safeDiv (inject_Z (totalConsumed e)) (inject_Z days) = Some (dailyAvg e))
  /\ (forall d, daysUntilEmpty e = Some d ->
        (0 < dailyAvg e)%Q
        /\ exists q,
             safeDiv (inject_Z (prod_quantity (product e))) (dailyAvg e) = Some q
             /\ d = Math_round q)
  /\ (daysUntilEmpty e = None <-> (dailyAvg e <= 0)%Q).
Proof.
  intros Hin. apply consumptionData_In in Hin. destruct Hin as [id [Hhas Hrow]].
  apply consumptionRow_fields in Hrow.
  destruct Hrow as [_ [Htot [_ [Havg [_ [Hdays _]]]]]].
  set (days := Z.max (actualDays period (dates (dataOf id exits))) 1) in *.
  assert (Hpos : 1 <= days) by (subst days; lia).
  assert (HposQ : (0 < inject_Z days)%Q).
  { change 0%Q with (inject_Z 0). rewrite <- Zlt_Qlt. lia. }
  split; [|split; [|split; [|split]]].
  - intros Hq. rewrite Havg. apply Qle_shift_div_l; [exact HposQ|].
    rewrite Qmult_0_l. change 0%Q with (inject_Z 0). rewrite <- Zle_Qle.
    simpl. apply sumQuantity_nonneg. intros m Hm. apply Hq.
    unfold movementsOf in Hm. now apply filter_In in Hm.
  - intros Hz. rewrite Hdays.
    destruct (Qlt_le_dec 0 (dailyAvg e)) as [Hlt|_]; [|reflexivity].
    rewrite Hz in Hlt. exfalso. exact (Qlt_irrefl 0 Hlt).
  - exists days. split; [exact Hpos|].
    rewrite Htot, Havg. apply safeDiv_defined.
    intros E. rewrite E in HposQ. exact (Qlt_irrefl 0 HposQ).
  - intros d Hd. rewrite Hdays in Hd.
    destruct (Qlt_le_dec 0 (dailyAvg e)) as [Hlt|_]; [|discriminate].
    split; [exact Hlt|].
    exists (inject_Z (prod_quantity (product e)) / dailyAvg e)%Q. split.
    + apply safeDiv_defined. intros E. rewrite E in Hlt. exact (Qlt_irrefl 0 Hlt).
    + congruence.
  - rewrite Hdays. destruct (Qlt_le_dec 0 (dailyAvg e)) as [Hlt|Hle].
    + split; [discriminate|]. intros H. exfalso.
      exact (Qlt_irrefl 0 (Qlt_le_trans _ _ _ Hlt H)).
    + split; auto.
Qed.

Lemma rate_division_guarded_witness :
  exists e,
    In e (consumptionData [sampleProduct "p1" 50 2] [] Pall
            [sampleMovement "p1" Exit 0 0])
    /\ (0 <= dailyAvg e)%Q /\ daysUntilEmpty e = None.
Proof.
  assert (H : exists e,
             In e (consumptionData [sampleProduct "p1" 50 2] [] Pall
                     [sampleMovement "p1" Exit 0 0])
             /\ (dailyAvg e == 0)%Q).
  { vm_compute. eexists. split; [left; reflexivity | reflexivity]. }
  destruct H as [e [He Hz]]. exists e. split; [exact He|].
  destruct (@rate_division_guarded _ _ _ _ e He) as [Hnn [Hnull _]].
  split; [|exact (Hnull Hz)].
  apply Hnn. intros m [<-|[]]. vm_compute. discriminate.
Defined.

(* ================================================================== *)
(** * Recording a movement (C10)                                      *)
(* ================================================================== *)

Lemma newQuantity_nonneg (current : Z) (ty : MovementType) (q : Z) :
  0 <= current -> (ty = Entry -> 0 <= q) -> 0 <= newQuantity current ty q.
Proof. intros Hc Hq. destruct ty; simpl; [specialize (Hq eq_refl)|]; lia. Qed.

Lemma updateQuantity_find (host : Host) (products : list Product) (id : string) (q : Z) :
  option_map prod_quantity (findProduct (updateQuantity host products id q) id)
  = option_map (fun _ => q) (findProduct products id).
Proof.
  unfold findProduct, updateQuantity.
  induction products as [|p ps IH]; simpl.
  - reflexivity.
  - destruct (String.eqb (prod_id p) id) eqn:E; simpl; rewrite E; [reflexivity | exact IH].
Qed.

Lemma updateQuantity_other (host : Host) (products : list Product) (id id' : string)
    (q : Z) :
  id' <> id ->
  findProduct (updateQuantity host products id q) id' = findProduct products id'.
Proof.
  intros Hne. unfold findProduct, updateQuantity.
  induction products as [|p ps IH]; simpl.
  - reflexivity.
  - destruct (String.eqb (prod_id p) id) eqn:E; simpl.
    + apply String.eqb_eq in E.
      assert (E' : String.eqb (prod_id p) id' = false)
        by (apply String.eqb_neq; congruence).
      rewrite E'. exact IH.
    + destruct (String.eqb (prod_id p) id'); [reflexivity | exact IH].
Qed.

Lemma updateQuantity_nonneg (host : Host) (products : list Product) (id : string)
    (q : Z) :
  0 <= q -> stockNonNegative products ->
  stockNonNegative (updateQuantity host products id q).
Proof.
  intros Hq H. unfold stockNonNegative, updateQuantity in *.
  induction H as [|p ps Hp Hps IH]; simpl; constructor.
  - destruct (String.eqb (prod_id p) id); simpl; assumption.
  - exact IH.
Qed.

Lemma postMovements_cases (host : Host) (db : Db) (b : MovementBody) :
  (insertMovement host db b = None /\ postMovements host db b = (db, Status500))
  \/ (exists p movement,
        findProduct (tbl_products db) (body_productId b) = Some p
        /\ movement = {| mov_id := body_id b; productId := body_productId b;
                         type := body_type b; quantity := body_quantity b;
                         note := body_note b; createdAt := wallClock host |}
        /\ postMovements host db b
           = ({| tbl_products :=
                   updateQuantity host (tbl_products db) (body_productId b)
                     (newQuantity (prod_quantity p) (body_type b) (body_quantity b));
                 tbl_movements := tbl_movements db ++ [movement] |}, Json movement)).
Proof.
  unfold postMovements, insertMovement.
  destruct (existsb (fun m => String.eqb (mov_id m) (body_id b)) (tbl_movements db));
    simpl; [left; auto|].
  destruct (existsb (fun p => String.eqb (prod_id p) (body_productId b))
              (tbl_products db)) eqn:E; simpl; [|left; auto].
  right.
  destruct (findProduct (tbl_products db) (body_productId b)) as [p|] eqn:F.
  - exists p. eexists. repeat split.
  - exfalso. apply existsb_exists in E. destruct E as [p [Hp Hid]].
    unfold findProduct in F. apply (find_none _ _ F) in Hp. congruence.
Qed.

(** C10.  [POST /api/movements] on a store without negative stock, with
    an entry quantity that is not negative: the stock stays non-negative
    whatever the outcome.  When the movement is stored (the answer is
    the movement, not status 500), the product's quantity becomes
    [quantity + q] for an entry, unclamped, and [max(0, quantity - q)]
    for an exit, which is 0 when the exit is at least the stock; the
    movement is recorded with its full quantity and no other product
    changes.  The insert is refused only for a duplicate movement id or
    an unknown product, never because of the quantity. *)
Theorem movement_clamps_stock (host : Host) (db : Db) (b : MovementBody) :
  stockNonNegative (tbl_products db) ->
  (body_type b = Entry -> 0 <= body_quantity b) ->
  let db' := fst (postMovements host db b) in
  stockNonNegative (tbl_products db')
  /\ (forall movement, snd (postMovements host db b) = Json movement ->
        exists p,
          findProduct (tbl_products db) (body_productId b) = Some p
          /\ option_map prod_quantity
               (findProduct (tbl_products db') (body_productId b))
             = Some (match body_type b with
                     | Entry => prod_quantity p + body_quantity b
                     | Exit => Z.max 0 (prod_quantity p - body_quantity b)
                     end)
          /\ (body_type b = Exit -> prod_quantity p <= body_quantity b ->
              option_map prod_quantity
                (findProduct (tbl_products db') (body_productId b)) = Some 0)
          /\ tbl_movements db' = tbl_movements db ++ [movement]
          /\ quantity movement = body_quantity b
          /\ (forall id, id <> body_productId b ->
                findProduct (tbl_products db') id = findProduct (tbl_products db) id))
  /\ (snd (postMovements host db b) = Status500
      <-> existsb (fun m => String.eqb (mov_id m) (body_id b)) (tbl_movements db) = true
          \/ findProduct (tbl_products db) (body_productId b) = None).
Proof.
  intros Hinv Hq db'. subst db'.
  destruct (postMovements_cases host db b)
    as [[Hins Hpost] | [p [mv [Hfind [Hmv Hpost]]]]]; rewrite Hpost; simpl.
  - split; [exact Hinv|]. split; [discriminate|].
    split; [intros _|reflexivity].
    unfold insertMovement in Hins.
    destruct (existsb (fun m => String.eqb (mov_id m) (body_id b)) (tbl_movements db));
      [now left|]. simpl in Hins. right.
    destruct (existsb (fun p => String.eqb (prod_id p) (body_productId b))
                (tbl_products db)) eqn:E; [discriminate|].
    unfold findProduct.
    destruct (find (fun p => String.eqb (prod_id p) (body_productId b))
                (tbl_products db)) as [p|] eqn:F; [|reflexivity].
    apply find_some in F. destruct F as [Hp Hid].
    assert (existsb (fun p => String.eqb (prod_id p) (body_productId b))
              (tbl_products db) = true) by (apply existsb_exists; eauto).
    congruence.
  - assert (Hp : 0 <= prod_quantity p).
    { apply findProduct_id in Hfind. destruct Hfind as [_ Hin].
      unfold stockNonNegative in Hinv. rewrite Forall_forall in Hinv. now apply Hinv. }
    split; [apply updateQuantity_nonneg; [now apply newQuantity_nonneg | exact Hinv]|].
    split.
    + intros movement Hresp. inversion Hresp; subst movement. exists p.
      split; [exact Hfind|].
      rewrite updateQuantity_find, Hfind. simpl.
      split; [destruct (body_type b); reflexivity|].
      split; [intros -> Hle; simpl; f_equal; lia|].
      split; [reflexivity|].
      split; [rewrite Hmv; reflexivity|].
      intros id Hid. now apply updateQuantity_other.
    + split; [discriminate|].
      intros [H|H]; [|congruence].
      exfalso.
      assert (Hpm : postMovements host db b = (db, Status500)).
      { unfold postMovements, insertMovement. now rewrite H. }
      rewrite Hpm in Hpost. discriminate.
Qed.

Lemma movement_clamps_stock_witness :
  let host := utcHost 1000 in
  let db := {| tbl_products := [sampleProduct "p1" 3 2; sampleProduct "p2" 8 1];
               tbl_movements := [] |} in
  let b := {| body_id := "m1"; body_productId := "p1"; body_type := Exit;
              body_quantity := 5; body_note := EmptyString |} in
  stockNonNegative (tbl_products (fst (postMovements host db b)))
  /\ option_map prod_quantity
       (findProduct (tbl_products (fst (postMovements host db b))) "p1") = Some 0.
Proof.
  intros host db b.
  assert (Hinv : stockNonNegative (tbl_products db)).
  { repeat constructor; simpl; lia. }
  assert (Hq : body_type b = Entry -> 0 <= body_quantity b).
  { intros H. discriminate H. }
  destruct (@movement_clamps_stock host db b Hinv Hq) as [Hnn [Hok _]].
  split; [exact Hnn|].
  destruct (Hok _ eq_refl) as [p [Hfind [_ [Hzero _]]]].
  apply Hzero; [reflexivity|].
  vm_compute in Hfind. inversion Hfind; subst p. vm_compute. discriminate.
Defined.

(** The local store's [addMovement] applies the same update to the
    first product with the id. *)
Lemma addMovement_clamps_stock (host : Host) (db : Db) (b : MovementBody) (p : Product) :
  findProduct (tbl_products db) (body_productId b) = Some p ->
  option_map prod_quantity
    (findProduct (tbl_products (fst (addMovement host db b))) (body_productId b))
  = Some (match body_type b with
          | Entry => prod_quantity p + body_quantity b
          | Exit => Z.max 0 (prod_quantity p - body_quantity b)
          end)
  /\ (stockNonNegative (tbl_products db) ->
      (body_type b = Entry -> 0 <= body_quantity b) ->
      stockNonNegative (tbl_products (fst (addMovement host db b)))).
Proof.
  unfold addMovement, findProduct, stockNonNegative. simpl.
  generalize (tbl_products db) as ps. induction ps as [|p0 ps IH]; simpl.
  - discriminate.
  - destruct (String.eqb (prod_id p0) (body_productId b)) eqn:E; simpl.
    + intros H. inversion H; subst p0. rewrite E. simpl. split.
      * destruct (body_type b); reflexivity.
      * intros Hinv Hq. inversion Hinv; subst. constructor; [|assumption].
        simpl. now apply newQuantity_nonneg.
    + intros H. rewrite E. destruct (IH H) as [IH1 IH2]. split; [exact IH1|].
      intros Hinv Hq. inversion Hinv; subst. constructor; [assumption|].
      now apply IH2.
Qed.

(* ================================================================== *)
(** * Empty catalogs (C9)                                             *)
(* ================================================================== *)

Lemma renderGeneralReport_total (products : list Product) (cb : list CategoryRow) :
  exists s, renderGeneralReport products cb = Some s.
Proof.
  unfold renderGeneralReport.
  assert (Havg : exists a,
             (if (0 <? length products)%nat
              then safeDiv (fold_left (fun a p => (a + price p)%Q) products 0%Q)
                     (inject_Z (Z.of_nat (length products)))
              else Some 0%Q) = Some a).
  { destruct (0 <? length products)%nat eqn:E; [|eauto].
    apply Nat.ltb_lt in E. rewrite safeDiv_defined; [eauto|].
    intros H. unfold Qeq in H. simpl in H. lia. }
  assert (Hmax : exists v,
             (if (0 <? length cb)%nat
              then option_map totalVal (nth_error cb 0)
              else Some 1%Q) = Some v).
  { destruct cb as [|c cb]; simpl; eauto. }
  destruct Havg as [a ->]. destruct Hmax as [v ->]. eauto.
Qed.

Lemma assembleReport_total (host : Host) (tab : ReportTab) (period : Period)
    (selectedProductIds : list string) (movements : list Movement)
    (products : list Product) (categories : list Category) :
  exists r,
    assembleReport host tab period selectedProductIds movements products categories
    = Some r.
Proof.
  unfold assembleReport.
  destruct (renderGeneralReport_total products (categoryBreakdown categories products))
    as [s ->].
  eauto.
Qed.

Lemma categoryBreakdown_no_products (categories : list Category) :
  categoryBreakdown categories [] = [].
Proof.
  unfold categoryBreakdown. simpl.
  induction categories as [|c cs IH]; simpl; [reflexivity | exact IH].
Qed.

Lemma rankRows_no_products (ms : list Movement) : rankRows [] ms = [].
Proof.
  unfold rankRows. simpl.
  induction (Object_entries (accumulateQty ms)) as [|kv l IH]; simpl;
    [reflexivity | exact IH].
Qed.

Lemma topByProduct_no_products (ms : list Movement) : topByProduct [] ms = [].
Proof.
  unfold topByProduct, rankByProduct. now rewrite rankRows_no_products.
Qed.

Lemma consumptionData_no_products (categories : list Category) (period : Period)
    (exits : list Movement) :
  consumptionData [] categories period exits = [].
Proof.
  unfold consumptionData.
  induction (Object_entries (exitsByProduct exits)) as [|kv l IH]; simpl;
    [reflexivity | exact IH].
Qed.

Lemma sumValue_no_products (ms : list Movement) : (sumValue [] ms == 0)%Q.
Proof.
  unfold sumValue.
  rewrite (fold_left_qsum
             (fun m => (inject_Z (quantity m) * priceOrZero [] (productId m))%Q)).
  induction ms as [|m ms IH]; simpl.
  - reflexivity.
  - rewrite Qplus_0_l in IH. rewrite IH. unfold priceOrZero. simpl. ring.
Qed.

Lemma consumptionData_no_categories (products : list Product) (period : Period)
    (exits : list Movement) :
  Forall (fun e => category e = None) (consumptionData products [] period exits).
Proof.
  apply Forall_forall. intros e He.
  apply consumptionData_In in He. destruct He as [id [_ Hrow]].
  unfold consumptionRow in Hrow. simpl in Hrow.
  destruct (findProduct products id); [|discriminate].
  inversion Hrow. reflexivity.
Qed.

(** C9, as stated, fails: an empty category list empties only the
    category breakdown; the ranking and the quantity totals still reflect
    the movements.  With an empty product list the quantity totals are
    still those of the movements. *)
Lemma empty_catalog_counterexample :
  let movements := [sampleMovement "p1" Entry 5 0] in
  (exists r,
     assembleReport (utcHost 0) TabEntries Pall [] movements
       [sampleProduct "p1" 50 2] [] = Some r
     /\ rep_topEntryByProduct r <> [] /\ rep_totalEntryQty r = 5)
  /\ (exists r,
        assembleReport (utcHost 0) TabEntries Pall [] movements [] [] = Some r
        /\ rep_totalEntryQty r = 5).
Proof.
  split.
  - eexists. split; [vm_compute; reflexivity|]. split; [discriminate | reflexivity].
  - eexists. split; [vm_compute; reflexivity|]. reflexivity.
Qed.

(** C9 (amended).  Assembling the report is defined for every input: the
    average price divides only by a positive product count and the first
    category row is read only from a non-empty breakdown.  With an empty
    product list both rankings, the consumption list and the category
    breakdown are empty, the entry and exit values are 0 and the stock
    summary is all zeros.  With an empty category list the category
    breakdown is empty and consumption entries carry no category.  With
    no movements all movement totals are 0 and rankings and consumption
    list are empty. *)
Theorem report_total_on_empty_catalogs (host : Host) (tab : ReportTab)
    (period : Period) (selectedProductIds : list string)
    (movements : list Movement) (products : list Product)
    (categories : list Category) :
  (exists r,
     assembleReport host tab period selectedProductIds movements products categories
     = Some r)
  /\ (exists r,
        assembleReport host tab period selectedProductIds movements [] categories
        = Some r
        /\ rep_topEntryByProduct r = [] /\ rep_topExitByProduct r = []
        /\ rep_consumptionData r = [] /\ rep_categoryBreakdown r = []
        /\ (rep_entryValue r == 0)%Q /\ (rep_exitValue r == 0)%Q
        /\ rep_stock r
           = {| totalStockValue := 0; productTotal := 0; avgPrice := 0;
                lowStock := []; zeroStock := []; maxCatVal := 1 |})
  /\ (exists r,
        assembleReport host tab period selectedProductIds movements products []
        = Some r
        /\ rep_categoryBreakdown r = [] /\ maxCatVal (rep_stock r) = 1%Q
        /\ Forall (fun e => category e = None) (rep_consumptionData r))
  /\ (exists r,
        assembleReport host tab period selectedProductIds [] products categories
        = Some r
        /\ rep_totalEntryQty r = 0 /\ rep_totalExitQty r = 0
        /\ rep_entryValue r = 0%Q /\ rep_exitValue r = 0%Q
        /\ rep_topEntryByProduct r = [] /\ rep_topExitByProduct r = []
        /\ rep_consumptionData r = []).
Proof.
  split; [apply assembleReport_total|]. split; [|split].
  - unfold assembleReport. rewrite categoryBreakdown_no_products. simpl.
    eexists. split; [reflexivity|]. simpl.
    unfold topEntryByProduct, topExitByProduct, entryValue, exitValue.
    rewrite !topByProduct_no_products, consumptionData_no_products.
    repeat split; try reflexivity; apply sumValue_no_products.
  - destruct (assembleReport_total host tab period selectedProductIds movements
                products []) as [r Hr].
    exists r. split; [exact Hr|].
    unfold assembleReport in Hr.
    change (categoryBreakdown [] products) with (@nil CategoryRow) in Hr.
    unfold renderGeneralReport in Hr. simpl in Hr.
    destruct (if (0 <? length products)%nat
              then safeDiv (fold_left (fun a p => (a + price p)%Q) products 0%Q)
                     (inject_Z (Z.of_nat (length products)))
              else Some 0%Q); [|discriminate].
    inversion Hr; subst r; simpl.
    repeat split. apply consumptionData_no_categories.
  - assert (Hfl : filtered host [] period selectedProductIds = []).
    { unfold filtered. destruct period; simpl;
        destruct (0 <? Z.of_nat (length selectedProductIds)); reflexivity. }
    destruct (assembleReport_total host tab period selectedProductIds []
                products categories) as [r Hr].
    exists r. split; [exact Hr|].
    unfold assembleReport in Hr. rewrite Hfl in Hr.
    destruct (renderGeneralReport products (categoryBreakdown categories products));
      [|discriminate].
    inversion Hr; subst r; simpl. repeat split.
Qed.

Lemma report_total_on_empty_catalogs_witness :
  exists r,
    assembleReport (utcHost 0) TabGeneral P30d [] [sampleMovement "p1" Exit 5 0]
      [] [] = Some r
    /\ rep_topExitByProduct r = [] /\ rep_categoryBreakdown r = []
    /\ avgPrice (rep_stock r) = 0%Q.
Proof.
  destruct (report_total_on_empty_catalogs (utcHost 0) TabGeneral P30d []
              [sampleMovement "p1" Exit 5 0] [] [])
    as [_ [[r [Hr [_ [Hx [_ [Hcb [_ [_ Hst]]]]]]]] _]].
  exists r. split; [exact Hr|]. split; [exact Hx|]. split; [exact Hcb|].
  rewrite Hst. reflexivity.
Defined.

(** Scenario 3 of the specification: prices 10 and 20, stocks 5 and 3. *)
Example scenario_stock_summary :
  option_map (fun s => (Qred (totalStockValue s), Qred (avgPrice s)))
    (renderGeneralReport [sampleProduct "a" 5 10; sampleProduct "b" 3 20] [])
  = Some (110%Q, 15%Q).
Proof. vm_compute. reflexivity. Qed.

(* ================================================================== *)
(** * Product filter of the reports                                   *)
(* ================================================================== *)

Lemma includes_In (ids : list string) (id : string) :
  includes ids id = true <-> In id ids.
Proof.
  unfold includes. rewrite existsb_exists. split.
  - intros [x [Hx E]]. apply String.eqb_eq in E. now subst.
  - intros H. exists id. split; [exact H | apply String.eqb_refl].
Qed.

Lemma includes_false (ids : list string) (id : string) :
  includes ids id = false <-> ~ In id ids.
Proof.
  rewrite <- includes_In. destruct (includes ids id); split; congruence.
Qed.

(** X1.  Toggling an identifier flips its membership in the selection
    and nobody else's, keeps a selection free of repetitions, and
    toggling an absent identifier twice gives back the selection. *)
Theorem toggleProduct_flips (prev : list string) (id : string) :
  includes (toggleProduct prev id) id = negb (includes prev id)
  /\ (forall x, x <> id -> includes (toggleProduct prev id) x = includes prev x)
  /\ (NoDup prev -> NoDup (toggleProduct prev id))
  /\ (includes prev id = false -> toggleProduct (toggleProduct prev id) id = prev).
Proof.
  assert (Hadd : forall l : list string, ~ In id l ->
             filter (fun x => negb (String.eqb x id)) l = l).
  { intros l Hl. induction l as [|y l IH]; simpl; [reflexivity|].
    destruct (String.eqb y id) eqn:E; simpl.
    - apply String.eqb_eq in E. exfalso. apply Hl. now left.
    - f_equal. apply IH. intros H. apply Hl. now right. }
  unfold toggleProduct. destruct (includes prev id) eqn:Hin; simpl.
  - split; [|split; [|split]].
    + apply includes_false. intros H. apply filter_In in H. destruct H as [_ H].
      now rewrite String.eqb_refl in H.
    + intros x Hx. destruct (includes prev x) eqn:E.
      * apply includes_In. apply includes_In in E. apply filter_In. split; [exact E|].
        apply negb_true_iff, String.eqb_neq. exact Hx.
      * apply includes_false. apply includes_false in E. intros H.
        apply filter_In in H. tauto.
    + apply NoDup_filter.
    + discriminate.
  - apply includes_false in Hin. split; [|split; [|split]].
    + apply includes_In, in_or_app. right. now left.
    + intros x Hx. destruct (includes prev x) eqn:E.
      * apply includes_In. apply includes_In in E. apply in_or_app. now left.
      * apply includes_false. apply includes_false in E. intros H.
        apply in_app_or in H. destruct H as [H|[H|[]]]; [tauto | congruence].
    + intros Hnd. now apply NoDup_snoc.
    + intros _.
      assert (Hnow : includes (prev ++ [id]) id = true)
        by (apply includes_In, in_or_app; right; now left).
      rewrite Hnow, filter_app, (Hadd prev Hin). simpl.
      rewrite String.eqb_refl. simpl. apply app_nil_r.
Qed.

Lemma toggleProduct_flips_witness :
  toggleProduct (toggleProduct ["p1"; "p2"] "p3") "p3" = ["p1"; "p2"]
  /\ NoDup (toggleProduct ["p1"; "p2"] "p1").
Proof.
  destruct (toggleProduct_flips ["p1"; "p2"] "p3") as [_ [_ [_ Hback]]].
  destruct (toggleProduct_flips ["p1"; "p2"] "p1") as [_ [_ [Hnd _]]].
  split.
  - apply Hback. reflexivity.
  - apply Hnd. repeat constructor; simpl; intros H;
      repeat (destruct H as [H|H]; [discriminate H|]); exact H.
Defined.

Lemma filtered_In (host : Host) (movements : list Movement) (period : Period)
    (selectedProductIds : list string) (m : Movement) :
  In m (filtered host movements period selectedProductIds)
  <-> In m (filterByPeriod host movements period)
      /\ (selectedProductIds = [] \/ In (productId m) selectedProductIds).
Proof.
  unfold filtered. destruct selectedProductIds as [|s sel].
  - simpl. split; [auto | tauto].
  - change (0 <? Z.of_nat (length (s :: sel))) with true. cbv iota.
    rewrite filter_In, includes_In. split.
    + intros [H1 H2]. auto.
    + intros [H1 [H2|H2]]; [discriminate | auto].
Qed.

(** X2.  With a non-empty selection of at most ten products that all
    exist in the catalog, the filtered set only holds movements of
    selected products inside the period window, and the rankings add up
    to the totals, in quantity and in value. *)
Theorem selection_conserves_totals (host : Host) (movements : list Movement)
    (period : Period) (selectedProductIds : list string) (products : list Product) :
  selectedProductIds <> [] ->
  (length selectedProductIds <= 10)%nat ->
  (forall id, In id selectedProductIds -> findProduct products id <> None) ->
  let fl := filtered host movements period selectedProductIds in
  (forall m, In m fl ->
     In (productId m) selectedProductIds
     /\ In m (filterByPeriod host movements period))
  /\ rankQtySum (topExitByProduct products fl) = totalExitQty fl
  /\ rankQtySum (topEntryByProduct products fl) = totalEntryQty fl
  /\ (rankValueSum (topExitByProduct products fl) == exitValue products fl)%Q
  /\ (rankValueSum (topEntryByProduct products fl) == entryValue products fl)%Q.
Proof.
  intros Hne Hlen Hcat fl.
  assert (Hsel : forall m, In m fl ->
             In (productId m) selectedProductIds
             /\ In m (filterByPeriod host movements period)).
  { intros m Hm. apply filtered_In in Hm. destruct Hm as [H1 [H2|H2]];
      [contradiction | auto]. }
  split; [exact Hsel|].
  assert (Hids : forall m, In m fl -> In (productId m) selectedProductIds)
    by (intros m Hm; now apply Hsel).
  assert (Hfound : forall m, In m fl -> findProduct products (productId m) <> None)
    by (intros m Hm; apply Hcat; now apply Hids).
  destruct (@conservation_ten_products products fl selectedProductIds Hlen Hids Hfound)
    as [Hx He].
  split; [exact Hx|]. split; [exact He|].
  unfold topExitByProduct, topEntryByProduct, exitValue, entryValue.
  split; apply topByProduct_value.
  - eapply Nat.le_trans;
      [apply (@rankByProduct_length products (exits fl) selectedProductIds)|exact Hlen].
    intros m Hm. apply Hids. unfold exits in Hm. now apply filter_In in Hm.
  - eapply Nat.le_trans;
      [apply (@rankByProduct_length products (entries fl) selectedProductIds)|exact Hlen].
    intros m Hm. apply Hids. unfold entries in Hm. now apply filter_In in Hm.
Qed.

Lemma selection_conserves_totals_witness :
  let products := [sampleProduct "p1" 50 2; sampleProduct "p2" 10 (5 # 2)] in
  let movements := [sampleMovement "p1" Exit 5 3; sampleMovement "gone" Exit 4 2;
                    sampleMovement "p2" Exit 7 1] in
  let fl := filtered (utcHost 10) movements Pall ["p2"] in
  rankQtySum (topExitByProduct products fl) = totalExitQty fl.
Proof.
  intros products movements fl.
  assert (H1 : ["p2"] <> []) by discriminate.
  assert (H2 : (length ["p2"] <= 10)%nat) by (simpl; lia).
  assert (H3 : forall id, In id ["p2"] -> findProduct products id <> None).
  { intros id [<-|[]]. vm_compute. discriminate. }
  destruct (@selection_conserves_totals (utcHost 10) movements Pall ["p2"] products
              H1 H2 H3) as [_ [Hx _]].
  exact Hx.
Defined.

(* ================================================================== *)
(** * Bars of the ranking                                             *)
(* ================================================================== *)

Lemma sumQuantity_pos (ms : list Movement) :
  ms <> [] -> (forall m, In m ms -> 0 < quantity m) -> 0 < sumQuantity ms.
Proof.
  rewrite sumQuantity_zsum. destruct ms as [|m ms]; [congruence|].
  intros _ H. simpl.
  assert (0 < quantity m) by (apply H; now left).
  assert (0 <= zsum (map quantity ms)).
  { rewrite <- sumQuantity_zsum. apply sumQuantity_nonneg.
    intros x Hx. apply Z.lt_le_incl, H. now right. }
  lia.
Qed.

Lemma maxEntry_bound (top : list RankRow) (r : RankRow) :
  StronglySorted (fun a b => qty b <= qty a) top -> In r top -> qty r <= maxEntry top.
Proof.
  intros Hs Hr. destruct top as [|r0 top]; [contradiction|]. simpl.
  inversion Hs as [|? ? _ Hall]; subst. rewrite Forall_forall in Hall.
  destruct Hr as [<-|Hr]; [lia | now apply Hall].
Qed.

Lemma barWidth_bounds (value maxValue : Q) :
  (0 < maxValue)%Q -> (value <= maxValue)%Q ->
  (4 <= barWidth value maxValue)%Q /\ (barWidth value maxValue <= 100)%Q.
Proof.
  intros Hmax Hle. unfold barWidth, Math_maxQ.
  destruct (Qlt_le_dec 0 maxValue) as [_|H]; [|lra].
  assert (Hq : (value / maxValue * 100 <= 100)%Q).
  { assert (value / maxValue <= 1)%Q by (apply Qle_shift_div_r; [exact Hmax | lra]).
    lra. }
  destruct (Qlt_le_dec (value / maxValue * 100) 4); split; lra.
Qed.

(** X3.  When every movement has a positive quantity, each row of a
    ranking has a positive quantity not above [maxEntry], so every bar
    is between 4 and 100 percent wide, and the first row's bar is
    exactly 100 percent. *)
Theorem ranking_bars_in_range (products : list Product) (ms : list Movement) :
  (forall m, In m ms -> 0 < quantity m) ->
  let top := topByProduct products ms in
  (forall r, In r top ->
     0 < qty r <= maxEntry top
     /\ (4 <= barWidth (inject_Z (qty r)) (inject_Z (maxEntry top)))%Q
     /\ (barWidth (inject_Z (qty r)) (inject_Z (maxEntry top)) <= 100)%Q)
  /\ (forall r rest, top = r :: rest ->
        (barWidth (inject_Z (qty r)) (inject_Z (maxEntry top)) == 100)%Q).
Proof.
  intros Hpos top.
  assert (Hsorted : StronglySorted (fun a b => qty b <= qty a) top).
  { apply StronglySorted_firstn, jsSortZ_desc_sorted. }
  assert (Hrow : forall r, In r top -> 0 < qty r).
  { intros r Hr. apply firstn_In in Hr. apply rankByProduct_In in Hr.
    destruct Hr as [id [p [Hhas [_ ->]]]]. simpl.
    apply sumQuantity_pos.
    - intros E. apply hasMovement_movementsOf in E. congruence.
    - intros m Hm. apply Hpos. unfold movementsOf in Hm. now apply filter_In in Hm. }
  split.
  - intros r Hr.
    pose proof (Hrow r Hr) as H0.
    pose proof (@maxEntry_bound top r Hsorted Hr) as H1.
    split; [lia|].
    apply barWidth_bounds.
    + change 0%Q with (inject_Z 0). rewrite <- Zlt_Qlt. lia.
    + rewrite <- Zle_Qle. exact H1.
  - intros r rest E. rewrite E. simpl.
    assert (H0 : 0 < qty r) by (apply Hrow; rewrite E; now left).
    assert (HQ : (0 < inject_Z (qty r))%Q).
    { change 0%Q with (inject_Z 0). rewrite <- Zlt_Qlt. exact H0. }
    unfold barWidth, Math_maxQ.
    destruct (Qlt_le_dec 0 (inject_Z (qty r))) as [_|H]; [|lra].
    assert (Hone : (inject_Z (qty r) / inject_Z (qty r) * 100 == 100)%Q)
      by (field; lra).
    destruct (Qlt_le_dec (inject_Z (qty r) / inject_Z (qty r) * 100) 4) as [H|_];
      [lra | exact Hone].
Qed.

Lemma ranking_bars_in_range_witness :
  let products := [sampleProduct "p1" 50 2; sampleProduct "p2" 10 (5 # 2)] in
  let ms := [sampleMovement "p1" Exit 5 3; sampleMovement "p2" Exit 20 1] in
  forallb
    (fun r => Qle_bool 4 (barWidth (inject_Z (qty r))
                            (inject_Z (maxEntry (topByProduct products ms)))))
    (topByProduct products ms) = true.
Proof.
  intros products ms.
  assert (Hpos : forall m, In m ms -> 0 < quantity m).
  { intros m [<-|[<-|[]]]; vm_compute; reflexivity. }
  destruct (@ranking_bars_in_range products ms Hpos) as [Hall _].
  apply forallb_forall. intros r Hr. apply Qle_bool_iff.
  destruct (Hall r Hr) as [_ [H4 _]]. exact H4.
Defined.

(* ================================================================== *)
(** * Figures of the consumption report                               *)
(* ================================================================== *)

Lemma windowDays_actual (period : Period) (ds : list Z) :
  period <> Pall -> Z.max (actualDays period ds) 1 = windowDays period.
Proof. destruct period; try contradiction; reflexivity. Qed.

(** X5.  Every row of the consumption report carries the sum and the
    number of the product's exits; with a 7, 30 or 90 day window the
    daily average is that sum over the window's days, whenever the exits
    happened; the monthly projection is thirty daily averages and the
    cost projection prices it at the product's price.  The rows are in
    descending order of consumed quantity. *)
Theorem consumption_row_figures (products : list Product)
    (categories : list Category) (period : Period) (exits : list Movement)
    (e : ConsumptionEntry) :
  In e (consumptionData products categories period exits) ->
  let own := movementsOf (prod_id (product e)) exits in
  totalConsumed e = sumQuantity own
  /\ movCount e = length own
  /\ (period <> Pall ->
      (dailyAvg e == inject_Z (sumQuantity own) / inject_Z (windowDays period))%Q)
  /\ (monthlyProjection e == 30 * dailyAvg e)%Q
  /\ (costProjection e == 30 * dailyAvg e * price (product e))%Q
  /\ StronglySorted (fun a b => totalConsumed b <= totalConsumed a)
       (consumptionData products categories period exits).
Proof.
  intros Hin own. apply consumptionData_In in Hin. destruct Hin as [id [Hhas Hrow]].
  apply consumptionRow_fields in Hrow.
  destruct Hrow as [Hfind [Htot [Hcnt [Havg [Hmon [_ [_ Hcost]]]]]]].
  apply findProduct_id in Hfind. destruct Hfind as [Hid _].
  subst own. rewrite Hid.
  split; [exact Htot|].
  split; [rewrite Hcnt; simpl; apply length_map|].
  split.
  { intros Hp. rewrite Havg, (windowDays_actual _ Hp). reflexivity. }
  split; [rewrite Hmon; ring|].
  split; [rewrite Hcost, Hmon; ring|].
  apply jsSortZ_desc_sorted.
Qed.

Lemma consumption_row_figures_witness :
  exists e,
    In e (consumptionData [sampleProduct "p1" 50 2] [] P7d
            [sampleMovement "p1" Exit 10 0; sampleMovement "p1" Exit 4 5])
    /\ totalConsumed e = 14 /\ (dailyAvg e == 2)%Q.
Proof.
  assert (H : exists e,
             In e (consumptionData [sampleProduct "p1" 50 2] [] P7d
                     [sampleMovement "p1" Exit 10 0; sampleMovement "p1" Exit 4 5])
             /\ prod_id (product e) = "p1").
  { vm_compute. eexists. split; [left; reflexivity | reflexivity]. }
  destruct H as [e [He Hid]]. exists e. split; [exact He|].
  pose proof (@consumption_row_figures _ _ _ _ e He) as Hfig.
  simpl in Hfig. rewrite Hid in Hfig.
  destruct Hfig as [Htot [_ [Havg _]]].
  split; [exact Htot|].
  rewrite Havg by discriminate. reflexivity.
Defined.

(* ================================================================== *)
(** * Category breakdown                                              *)
(* ================================================================== *)

Lemma jsSortQ_perm {A : Type} (cmp : A -> A -> Q) (l : list A) :
  Permutation (jsSortQ cmp l) l.
Proof. apply sortBy_perm. Qed.

Lemma jsSortQ_desc_sorted {A : Type} (key : A -> Q) (l : list A) :
  StronglySorted (fun a b => key b <= key a)%Q
    (jsSortQ (fun a b => key b - key a)%Q l).
Proof.
  unfold jsSortQ.
  apply StronglySorted_weaken with
    (R := fun a b => Qle_bool (key b - key a) 0 = true).
  - intros a b H. apply Qle_bool_iff in H. lra.
  - apply sortBy_sorted.
    + intros x y H. apply Qle_bool_iff.
      destruct (Qlt_le_dec 0 (key y - key x)) as [Hlt|Hle]; [lra|].
      apply Qle_bool_iff in Hle. congruence.
    + intros x y z H1 H2. apply Qle_bool_iff in H1, H2. apply Qle_bool_iff. lra.
Qed.

Lemma categoryBreakdown_rows (categories : list Category) (products : list Product) :
  categoryBreakdown categories products
  = jsSortQ (fun a b => (totalVal b - totalVal a)%Q)
      (filter (fun c => (0 <? productCount c)%nat)
         (map (categoryRowOf products) categories)).
Proof. reflexivity. Qed.

Lemma no_category_Z (cs : list Category) (cid : string) (v : Z) :
  ~ In cid (map cat_id cs) ->
  zsum (map (fun c => if String.eqb cid (cat_id c) then v else 0) cs) = 0.
Proof.
  induction cs as [|c cs IH]; simpl; intros Hc; [reflexivity|].
  destruct (String.eqb cid (cat_id c)) eqn:E.
  - apply String.eqb_eq in E. exfalso. apply Hc. left. congruence.
  - apply IH. intros H. apply Hc. now right.
Qed.

Lemma one_category_Z (cs : list Category) (cid : string) (v : Z) :
  NoDup (map cat_id cs) -> In cid (map cat_id cs) ->
  zsum (map (fun c => if String.eqb cid (cat_id c) then v else 0) cs) = v.
Proof.
  induction cs as [|c cs IH]; simpl; intros Hnd Hin; [contradiction|].
  inversion Hnd as [|? ? Hc Hcs]; subst.
  destruct (String.eqb cid (cat_id c)) eqn:E.
  - apply String.eqb_eq in E. subst cid. rewrite no_category_Z by exact Hc. lia.
  - apply String.eqb_neq in E. destruct Hin as [Hin|Hin]; [congruence|].
    rewrite IH by assumption. reflexivity.
Qed.

Section CategorySums.
Variable categories : list Category.
Hypothesis ids_unique : NoDup (map cat_id categories).

Lemma by_category_Z (f : Product -> Z) (products : list Product) :
  (forall p, In p products ->
     exists c, In c categories /\ cat_id c = categoryId p) ->
  zsum (map (fun c =>
               zsum (map f (filter (fun p => String.eqb (categoryId p) (cat_id c))
                              products)))
          categories)
  = zsum (map f products).
Proof.
  induction products as [|p ps IH]; intros Hcat.
  - simpl. clear. induction categories; simpl; [reflexivity | assumption].
  - assert (Hsplit :
      zsum (map (fun c =>
                   zsum (map f (filter (fun p0 => String.eqb (categoryId p0) (cat_id c))
                                  (p :: ps))))
              categories)
      = zsum (map (fun c => if String.eqb (categoryId p) (cat_id c) then f p else 0)
                categories)
        + zsum (map (fun c =>
                       zsum (map f (filter (fun p0 => String.eqb (categoryId p0) (cat_id c))
                                      ps)))
                  categories)).
    { clear. induction categories as [|c cs IHc]; simpl in *; [reflexivity|].
      rewrite IHc. destruct (String.eqb (categoryId p) (cat_id c)); simpl; lia. }
    rewrite Hsplit, IH by (intros; apply Hcat; now right).
    rewrite (@one_category_Z categories (categoryId p) _ ids_unique)
      by (destruct (Hcat p (or_introl eq_refl)) as [c [Hc <-]]; now apply in_map).
    reflexivity.
Qed.

End CategorySums.

Lemma zsum_filter_zero {A : Type} (keep : A -> bool) (g : A -> Z) (l : list A) :
  (forall x, In x l -> keep x = false -> g x = 0) ->
  zsum (map g (filter keep l)) = zsum (map g l).
Proof.
  induction l as [|x l IH]; simpl; intros H; [reflexivity|].
  assert (IH' : zsum (map g (filter keep l)) = zsum (map g l))
    by (apply IH; intros; apply H; auto).
  destruct (keep x) eqn:E; simpl; [lia|].
  rewrite (H x (or_introl eq_refl) E). lia.
Qed.

Lemma length_zsum {A : Type} (l : list A) :
  Z.of_nat (length l) = zsum (map (fun _ => 1) l).
Proof.
  induction l as [|x l IH]; [reflexivity|].
  change (zsum (map (fun _ : A => 1) (x :: l)))
    with (1 + zsum (map (fun _ : A => 1) l)).
  rewrite <- IH. change (length (x :: l)) with (S (length l)). lia.
Qed.

Lemma categoryRowOf_empty (products : list Product) (c : Category) :
  (0 <? productCount (categoryRowOf products c))%nat = false ->
  filter (fun p => String.eqb (categoryId p) (cat_id c)) products = [].
Proof.
  simpl. intros H. apply Nat.ltb_ge in H.
  apply length_zero_iff_nil. lia.
Qed.

(** X6.  Every row of the category breakdown is the row built for a
    listed category that has at least one product: it carries the
    number of products of that category and the sum of their
    quantities; the rows are in descending order of [totalVal].  When
    category identifiers are unique and every product's category is in
    the list, the product counts of the rows add up to the number of
    products and their quantities to the total stock. *)
Theorem category_breakdown_adds_up (categories : list Category)
    (products : list Product) :
  let rows := categoryBreakdown categories products in
  (forall r, In r rows ->
     In (row_category r) categories
     /\ (0 < productCount r)%nat
     /\ r = categoryRowOf products (row_category r)
     /\ productCount r
        = length (filter (fun p => String.eqb (categoryId p) (cat_id (row_category r)))
                    products)
     /\ totalQty r
        = zsum (map prod_quantity
                  (filter (fun p => String.eqb (categoryId p) (cat_id (row_category r)))
                     products)))
  /\ StronglySorted (fun a b => totalVal b <= totalVal a)%Q rows
  /\ (NoDup (map cat_id categories) ->
      (forall p, In p products ->
         exists c, In c categories /\ cat_id c = categoryId p) ->
      zsum (map (fun r => Z.of_nat (productCount r)) rows) = Z.of_nat (length products)
      /\ zsum (map totalQty rows)
         = fold_left (fun a p => a + prod_quantity p) products 0).
Proof.
  intros rows. subst rows. rewrite categoryBreakdown_rows.
  set (unsorted := filter (fun c => (0 <? productCount c)%nat)
                     (map (categoryRowOf products) categories)).
  assert (Hperm : Permutation (jsSortQ (fun a b => (totalVal b - totalVal a)%Q) unsorted)
                    unsorted) by apply jsSortQ_perm.
  split; [|split].
  - intros r Hr. apply (Permutation_in _ Hperm) in Hr. subst unsorted.
    apply filter_In in Hr. destruct Hr as [Hr Hc].
    apply in_map_iff in Hr. destruct Hr as [c [<- Hin]].
    split; [exact Hin|]. split; [now apply Nat.ltb_lt|]. split; [reflexivity|].
    split; [reflexivity|]. simpl. now rewrite fold_left_zsum.
  - apply (jsSortQ_desc_sorted totalVal).
  - intros Hnd Hcat. split.
    + rewrite (zsum_perm (Permutation_map _ Hperm)). subst unsorted.
      rewrite zsum_filter_zero.
      * rewrite map_map, length_zsum.
        rewrite <- (@by_category_Z categories Hnd (fun _ => 1) products Hcat).
        f_equal. apply map_ext. intros c. simpl. apply length_zsum.
      * intros r Hr E. apply in_map_iff in Hr. destruct Hr as [c [<- _]].
        apply categoryRowOf_empty in E. simpl. now rewrite E.
    + rewrite (zsum_perm (Permutation_map _ Hperm)). subst unsorted.
      rewrite zsum_filter_zero.
      * rewrite map_map, fold_left_zsum.
        rewrite <- (@by_category_Z categories Hnd prod_quantity products Hcat).
        simpl. f_equal. apply map_ext. intros c. now rewrite fold_left_zsum.
      * intros r Hr E. apply in_map_iff in Hr. destruct Hr as [c [<- _]].
        apply categoryRowOf_empty in E. simpl. now rewrite E.
Qed.

Lemma category_breakdown_adds_up_witness :
  let categories := [mkCategory "cat_1" "A" "#111"; mkCategory "cat_2" "B" "#222"] in
  let products := [sampleProduct "p1" 5 10; sampleProduct "p2" 3 20] in
  zsum (map totalQty (categoryBreakdown categories products)) = 8.
Proof.
  intros categories products.
  assert (Hnd : NoDup (map cat_id categories)).
  { repeat constructor; simpl; intros H;
      repeat (destruct H as [H|H]; [discriminate H|]); exact H. }
  assert (Hcat : forall p, In p products ->
                   exists c, In c categories /\ cat_id c = categoryId p).
  { intros p Hp. exists (mkCategory "cat_1" "A" "#111"). split; [now left|].
    destruct Hp as [<-|[<-|[]]]; reflexivity. }
  destruct (@category_breakdown_adds_up categories products) as [_ [_ Hsum]].
  destruct (Hsum Hnd Hcat) as [_ Hq]. exact Hq.
Defined.

(* ================================================================== *)
(** * Store operations                                                *)
(* ================================================================== *)

Lemma findProduct_filter_other (products : list Product) (id id' : string) :
  id' <> id ->
  findProduct (filter (fun p => negb (String.eqb (prod_id p) id)) products) id'
  = findProduct products id'.
Proof.
  intros Hne. unfold findProduct. induction products as [|p ps IH]; simpl.
  - reflexivity.
  - destruct (String.eqb (prod_id p) id) eqn:E; simpl.
    + apply String.eqb_eq in E.
      assert (E' : String.eqb (prod_id p) id' = false)
        by (apply String.eqb_neq; congruence).
      rewrite E'. exact IH.
    + destruct (String.eqb (prod_id p) id'); [reflexivity | exact IH].
Qed.

Lemma findProduct_filter_same (products : list Product) (id : string) :
  findProduct (filter (fun p => negb (String.eqb (prod_id p) id)) products) id = None.
Proof.
  unfold findProduct. induction products as [|p ps IH]; simpl.
  - reflexivity.
  - destruct (String.eqb (prod_id p) id) eqn:E; simpl; [exact IH|].
    rewrite E. exact IH.
Qed.

Lemma NoDup_map_filter {A B : Type} (f : A -> B) (keep : A -> bool) (l : list A) :
  NoDup (map f l) -> NoDup (map f (filter keep l)).
Proof.
  induction l as [|x l IH]; simpl; intros H; [constructor|].
  inversion H as [|? ? Hx Hl]; subst.
  destruct (keep x); simpl; [|now apply IH].
  constructor; [|now apply IH].
  intros Hin. apply Hx. apply in_map_iff in Hin. destruct Hin as [y [E Hy]].
  apply filter_In in Hy. rewrite <- E. apply in_map. tauto.
Qed.

(** X7.  Deleting a product removes it and all its movements and
    nothing else: no movement refers to the deleted identifier
    afterwards, other products and their movements are untouched, a
    store whose movements all refer to stored products stays so,
    identifiers stay unique, and deleting again changes nothing. *)
Theorem deleteProduct_cascades (db : Db) (id : string) :
  let db' := deleteProduct db id in
  findProduct (tbl_products db') id = None
  /\ (forall m, In m (tbl_movements db') -> productId m <> id)
  /\ (forall id', id' <> id ->
        findProduct (tbl_products db') id' = findProduct (tbl_products db) id')
  /\ (forall m, productId m <> id ->
        (In m (tbl_movements db') <-> In m (tbl_movements db)))
  /\ (referencesIntact db -> referencesIntact db')
  /\ (uniqueIds db -> uniqueIds db')
  /\ deleteProduct db' id = db'.
Proof.
  simpl. split; [apply findProduct_filter_same|].
  assert (Hmov : forall m,
             In m (filter (fun m => negb (String.eqb (productId m) id)) (tbl_movements db))
             <-> In m (tbl_movements db) /\ productId m <> id).
  { intros m. rewrite filter_In, negb_true_iff, String.eqb_neq. reflexivity. }
  split; [intros m Hm; now apply Hmov in Hm|].
  split; [intros id' Hne; now apply findProduct_filter_other|].
  split; [intros m Hne; rewrite Hmov; tauto|].
  split; [|split].
  - intros Hint m Hm. simpl in *. apply Hmov in Hm. destruct Hm as [Hm Hne].
    rewrite findProduct_filter_other by exact Hne. now apply Hint.
  - intros [Hp Hm]. split; simpl; now apply NoDup_map_filter.
  - unfold deleteProduct. simpl. f_equal.
    + apply filter_absorb. auto.
    + apply filter_absorb. auto.
Qed.

Lemma deleteProduct_cascades_witness :
  referencesIntact (deleteProduct sampleDb "p2")
  /\ tbl_movements (deleteProduct sampleDb "p2") = [].
Proof.
  destruct (deleteProduct_cascades sampleDb "p2") as [_ [_ [_ [_ [Hint _]]]]].
  split; [|reflexivity].
  apply Hint. intros m [<-|[]]. vm_compute. discriminate.
Defined.

Lemma updateQuantity_ids (host : Host) (products : list Product) (id : string) (q : Z) :
  map prod_id (updateQuantity host products id q) = map prod_id products.
Proof.
  unfold updateQuantity. rewrite map_map. apply map_ext.
  intros p. now destruct (String.eqb (prod_id p) id).
Qed.

Lemma findProduct_present (products : list Product) (id : string) :
  findProduct products id <> None <-> In id (map prod_id products).
Proof.
  unfold findProduct. induction products as [|p ps IH]; simpl.
  - split; [congruence | tauto].
  - destruct (String.eqb (prod_id p) id) eqn:E.
    + apply String.eqb_eq in E. split; [auto | congruence].
    + apply String.eqb_neq in E. rewrite IH. split; [auto | intros [H|H]; [contradiction | exact H]].
Qed.

Lemma postMovements_stored (host : Host) (db : Db) (b : MovementBody) (mv : Movement) :
  snd (postMovements host db b) = Json mv ->
  existsb (fun m => String.eqb (mov_id m) (body_id b)) (tbl_movements db) = false
  /\ mov_id mv = body_id b
  /\ exists p,
       findProduct (tbl_products db) (body_productId b) = Some p
       /\ fst (postMovements host db b)
          = {| tbl_products :=
                 updateQuantity host (tbl_products db) (body_productId b)
                   (newQuantity (prod_quantity p) (body_type b) (body_quantity b));
               tbl_movements := tbl_movements db ++ [mv] |}.
Proof.
  intros Hresp.
  destruct (postMovements_cases host db b)
    as [[_ Hpost] | [p [mv' [Hfind [Hmv Hpost]]]]]; rewrite Hpost in *; simpl in *.
  - discriminate.
  - injection Hresp as Hinj. split; [|split].
    + destruct (existsb _ (tbl_movements db)) eqn:E; [|reflexivity].
      exfalso. unfold postMovements, insertMovement in Hpost. rewrite E in Hpost.
      simpl in Hpost. inversion Hpost.
    + rewrite <- Hinj, Hmv. reflexivity.
    + exists p. split; [exact Hfind | now rewrite Hinj].
Qed.

(** X8.  [POST /api/movements] keeps the store consistent: if every
    movement refers to a stored product and identifiers are unique
    before the request, both hold after it, whether the request is
    stored or answered with status 500. *)
Theorem postMovements_keeps_integrity (host : Host) (db : Db) (b : MovementBody) :
  referencesIntact db -> uniqueIds db ->
  referencesIntact (fst (postMovements host db b))
  /\ uniqueIds (fst (postMovements host db b)).
Proof.
  intros Hint [Hup Hum].
  destruct (snd (postMovements host db b)) as [mv|] eqn:Hresp.
  - destruct (postMovements_stored host db b Hresp) as [Hfresh [Hid [p [Hfind ->]]]].
    split.
    + intros m Hm. simpl in *.
      apply findProduct_present. rewrite updateQuantity_ids.
      apply findProduct_present.
      apply in_app_or in Hm. destruct Hm as [Hm|[<-|[]]]; [now apply Hint|].
      destruct (postMovements_cases host db b)
        as [[_ Hpost] | [p' [mv' [_ [Hmv Hpost]]]]]; rewrite Hpost in Hresp;
        simpl in Hresp; [discriminate|].
      injection Hresp as Hinj. rewrite <- Hinj, Hmv. simpl. congruence.
    + split; simpl.
      * now rewrite updateQuantity_ids.
      * rewrite map_app. simpl. apply NoDup_snoc; [exact Hum|].
        intros Hin. apply in_map_iff in Hin. destruct Hin as [m [E Hm]].
        assert (Hex : existsb (fun m => String.eqb (mov_id m) (body_id b))
                        (tbl_movements db) = true).
        { apply existsb_exists. exists m. split; [exact Hm|].
          apply String.eqb_eq. congruence. }
        congruence.
  - destruct (postMovements_cases host db b)
      as [[_ Hpost] | [p' [mv' [_ [_ Hpost]]]]]; rewrite Hpost in *; simpl in *.
    + split; [exact Hint | split; assumption].
    + discriminate.
Qed.

Lemma postMovements_keeps_integrity_witness :
  referencesIntact (fst (postMovements (utcHost 5) sampleDb (sampleBody "m9" "p1" Exit 2)))
  /\ uniqueIds (fst (postMovements (utcHost 5) sampleDb (sampleBody "m9" "p1" Exit 2))).
Proof.
  apply postMovements_keeps_integrity.
  - intros m [<-|[]]. vm_compute. discriminate.
  - split; simpl; repeat constructor; simpl; intros H;
      repeat (destruct H as [H|H]; [discriminate H|]); exact H.
Defined.

Lemma updateFirst_unknown (host : Host) (products : list Product) (b : MovementBody) :
  findProduct products (body_productId b) = None ->
  updateFirst host products b = products.
Proof.
  unfold findProduct. induction products as [|p ps IH]; simpl; [reflexivity|].
  destruct (String.eqb (prod_id p) (body_productId b)); [discriminate|].
  intros H. now rewrite IH.
Qed.

(** X9.  A movement for a product the store does not have: the local
    store records it and changes no stock, leaving a movement without
    product; the server answers status 500 and stores nothing. *)
Theorem unknown_product_local_and_server (host : Host) (db : Db) (b : MovementBody) :
  findProduct (tbl_products db) (body_productId b) = None ->
  tbl_products (fst (addMovement host db b)) = tbl_products db
  /\ tbl_movements (fst (addMovement host db b))
     = tbl_movements db ++ [snd (addMovement host db b)]
  /\ quantity (snd (addMovement host db b)) = body_quantity b
  /\ ~ referencesIntact (fst (addMovement host db b))
  /\ postMovements host db b = (db, Status500).
Proof.
  intros Hnone. unfold addMovement. simpl.
  rewrite (updateFirst_unknown host _ b Hnone).
  split; [reflexivity|]. split; [reflexivity|]. split; [reflexivity|]. split.
  - intros Hint. unfold referencesIntact in Hint. simpl in Hint.
    apply (Hint {| mov_id := body_id b; productId := body_productId b;
                   type := body_type b; quantity := body_quantity b;
                   note := body_note b; createdAt := wallClock host |}).
    + apply in_or_app. right. now left.
    + exact Hnone.
  - destruct (postMovements_cases host db b)
      as [[_ Hpost] | [p [mv [Hfind _]]]]; [exact Hpost | congruence].
Qed.

Lemma unknown_product_local_and_server_witness :
  tbl_products (fst (addMovement (utcHost 5) sampleDb (sampleBody "m9" "zz" Exit 2)))
  = tbl_products sampleDb
  /\ postMovements (utcHost 5) sampleDb (sampleBody "m9" "zz" Exit 2)
     = (sampleDb, Status500).
Proof.
  destruct (@unknown_product_local_and_server (utcHost 5) sampleDb
              (sampleBody "m9" "zz" Exit 2) eq_refl) as [H1 [_ [_ [_ H5]]]].
  split; [exact H1 | exact H5].
Defined.

Lemma updateFirst_unique (host : Host) (products : list Product) (b : MovementBody)
    (p : Product) :
  NoDup (map prod_id products) ->
  findProduct products (body_productId b) = Some p ->
  updateFirst host products b
  = updateQuantity host products (body_productId b)
      (newQuantity (prod_quantity p) (body_type b) (body_quantity b)).
Proof.
  unfold findProduct, updateQuantity.
  induction products as [|p0 ps IH]; simpl; intros Hnd Hfind; [discriminate|].
  inversion Hnd as [|? ? Hp0 Hps]; subst.
  destruct (String.eqb (prod_id p0) (body_productId b)) eqn:E.
  - inversion Hfind; subst p0. f_equal.
    apply String.eqb_eq in E. rewrite <- (map_id ps) at 1. apply map_ext_in.
    intros x Hx. destruct (String.eqb (prod_id x) (body_productId b)) eqn:Ex;
      [|reflexivity].
    apply String.eqb_eq in Ex. exfalso. apply Hp0. rewrite E, <- Ex. now apply in_map.
  - f_equal. now apply IH.
Qed.

(** X10.  With unique product identifiers the two write paths agree:
    whenever the server stores a movement, the local store's
    [addMovement] on the same tables leaves exactly the same products
    and movements. *)
Theorem write_paths_agree (host : Host) (db : Db) (b : MovementBody) (mv : Movement) :
  NoDup (map prod_id (tbl_products db)) ->
  snd (postMovements host db b) = Json mv ->
  fst (postMovements host db b) = fst (addMovement host db b)
  /\ snd (addMovement host db b) = mv.
Proof.
  intros Hnd Hresp.
  destruct (postMovements_cases host db b)
    as [[_ Hpost] | [p [mv' [Hfind [Hmv Hpost]]]]]; rewrite Hpost in *; simpl in *.
  - discriminate.
  - injection Hresp as Hinj. unfold addMovement. simpl.
    rewrite (@updateFirst_unique host (tbl_products db) b p Hnd Hfind), <- Hinj, Hmv.
    split; reflexivity.
Qed.

Lemma write_paths_agree_witness :
  fst (postMovements (utcHost 5) sampleDb (sampleBody "m9" "p1" Exit 2))
  = fst (addMovement (utcHost 5) sampleDb (sampleBody "m9" "p1" Exit 2)).
Proof.
  assert (Hnd : NoDup (map prod_id (tbl_products sampleDb))).
  { simpl. repeat constructor; simpl; intros H;
      repeat (destruct H as [H|H]; [discriminate H|]); exact H. }
  destruct (@write_paths_agree (utcHost 5) sampleDb (sampleBody "m9" "p1" Exit 2)
              _ Hnd eq_refl) as [H _].
  exact H.
Defined.

Lemma addMovement_stockOf (host : Host) (db : Db) (b : MovementBody) (id : string) :
  stockOf (fst (addMovement host db b)) id
  = option_map
      (fun q => if String.eqb (body_productId b) id
                then newQuantity q (body_type b) (body_quantity b) else q)
      (stockOf db id).
Proof.
  unfold stockOf, addMovement, findProduct. simpl.
  induction (tbl_products db) as [|p ps IH]; simpl; [reflexivity|].
  destruct (String.eqb (prod_id p) (body_productId b)) eqn:E; simpl.
  - apply String.eqb_eq in E.
    destruct (String.eqb (prod_id p) id) eqn:E'; simpl.
    + apply String.eqb_eq in E'.
      assert (Hb : String.eqb (body_productId b) id = true)
        by (apply String.eqb_eq; congruence).
      now rewrite Hb.
    + destruct (find (fun p0 => String.eqb (prod_id p0) id) ps) as [p1|] eqn:F;
        simpl; [|reflexivity].
      apply find_some in F. destruct F as [_ F]. apply String.eqb_eq in F.
      assert (Hb : String.eqb (body_productId b) id = false).
      { apply String.eqb_neq. apply String.eqb_neq in E'. congruence. }
      now rewrite Hb.
  - destruct (String.eqb (prod_id p) id) eqn:E'; simpl.
    + apply String.eqb_eq in E'.
      assert (Hb : String.eqb (body_productId b) id = false).
      { apply String.eqb_neq. apply String.eqb_neq in E. congruence. }
      now rewrite Hb.
    + exact IH.
Qed.

Lemma newQuantity_signed (q : Z) (b : MovementBody) :
  q + signedQuantity b <= newQuantity q (body_type b) (body_quantity b)
  /\ (body_type b = Entry ->
      newQuantity q (body_type b) (body_quantity b) = q + signedQuantity b).
Proof.
  unfold signedQuantity, newQuantity. destruct (body_type b); split; try lia.
  discriminate.
Qed.

(** X11.  After any sequence of movements recorded in the local store,
    the stock of a product is never below its starting stock plus its
    entries minus its exits; it is exactly that balance when only
    entries were recorded for it, and it is not negative if it was not
    and no entry has a negative quantity. *)
Theorem stock_never_below_balance (host : Host) (bodies : list MovementBody)
    (db : Db) (id : string) (q : Z) :
  stockOf db id = Some q ->
  exists q',
    stockOf (recordAll host db bodies) id = Some q'
    /\ q + balanceOf id bodies <= q'
    /\ ((forall b, In b bodies -> body_productId b = id -> body_type b = Entry) ->
        q' = q + balanceOf id bodies)
    /\ (0 <= q ->
        (forall b, In b bodies -> body_type b = Entry -> 0 <= body_quantity b) ->
        0 <= q').
Proof.
  revert db q. induction bodies as [|b bs IH]; intros db q Hq.
  - exists q. simpl. unfold balanceOf. simpl. repeat split; auto; lia.
  - unfold recordAll. simpl. fold (recordAll host (fst (addMovement host db b)) bs).
    pose proof (addMovement_stockOf host db b id) as Hstep. rewrite Hq in Hstep.
    simpl in Hstep.
    destruct (IH _ _ Hstep) as [q' [Hq' [Hle [Heq Hnn]]]].
    exists q'. split; [exact Hq'|].
    unfold balanceOf in *. simpl.
    destruct (newQuantity_signed q b) as [Hs1 Hs2].
    destruct (String.eqb (body_productId b) id) eqn:E; simpl.
    + apply String.eqb_eq in E. split; [lia|]. split.
      * intros Hall. rewrite Heq by (intros; apply Hall; auto).
        rewrite Hs2 by (apply Hall; auto). lia.
      * intros H0 Hent. apply Hnn; [|intros; apply Hent; auto].
        apply newQuantity_nonneg; [exact H0|]. intros Ht. apply Hent; auto.
    + split; [lia|]. split.
      * intros Hall. apply Heq. intros; apply Hall; auto.
      * intros H0 Hent. apply Hnn; [exact H0|]. intros; apply Hent; auto.
Qed.

Lemma stock_never_below_balance_witness :
  exists q',
    stockOf (recordAll (utcHost 5) sampleDb
               [sampleBody "a" "p1" Exit 5; sampleBody "b" "p1" Entry 5]) "p1" = Some q'
    /\ 3 + 0 <= q'.
Proof.
  destruct (@stock_never_below_balance (utcHost 5)
              [sampleBody "a" "p1" Exit 5; sampleBody "b" "p1" Entry 5]
              sampleDb "p1" 3 eq_refl) as [q' [H1 [H2 _]]].
  exists q'. split; [exact H1 | exact H2].
Defined.

(** X12.  Recording an entry and then an exit of the same quantity
    gives back the stock.  The other order does not when the exit is
    clamped: an exit followed by an entry of the same quantity leaves
    the larger of the stock and that quantity. *)
Theorem entry_exit_round_trip (host : Host) (db : Db) (id ida idb : string)
    (q x : Z) (na nb : string) :
  stockOf db id = Some q -> 0 <= q -> 0 <= x ->
  stockOf (recordAll host db
             [mkBody ida id Entry x na; mkBody idb id Exit x nb]) id = Some q
  /\ stockOf (recordAll host db
                [mkBody ida id Exit x na; mkBody idb id Entry x nb]) id
     = Some (Z.max q x).
Proof.
  intros Hq H0 Hx. unfold recordAll. cbn [fold_left].
  rewrite !addMovement_stockOf, Hq.
  cbn [option_map body_productId body_type body_quantity].
  rewrite String.eqb_refl. unfold newQuantity.
  split; f_equal; lia.
Qed.

Lemma entry_exit_round_trip_witness :
  stockOf (recordAll (utcHost 5) sampleDb
             [mkBody "a" "p1" Exit 5 EmptyString; mkBody "b" "p1" Entry 5 EmptyString])
    "p1" = Some 5.
Proof.
  assert (H0 : 0 <= 3) by lia. assert (Hx : 0 <= 5) by lia.
  destruct (@entry_exit_round_trip (utcHost 5) sampleDb "p1" "a" "b" 3 5
              EmptyString EmptyString eq_refl H0 Hx) as [_ H].
  exact H.
Defined.

(* ================================================================== *)
(** * The add-movement screen                                         *)
(* ================================================================== *)

Lemma stockOf_found (db : Db) (id : string) (q : Z) :
  stockOf db id = Some q ->
  exists p, findProduct (tbl_products db) id = Some p /\ prod_quantity p = q.
Proof.
  unfold stockOf. destruct (findProduct (tbl_products db) id) as [p|]; simpl;
    [|discriminate].
  intros H. exists p. split; congruence.
Qed.

(** X13.  What [handleSave] lets through, when the screen shows the
    store's products: the recorded movement is for the selected product
    with the parsed, positive quantity and the trimmed note; the stock
    of that product moves by exactly that quantity (an exit is never
    clamped, because an exit above the stock is refused); stock that
    was not negative stays so.  A refusal for insufficient stock only
    happens for an exit above the stock of the selected product. *)
Theorem handleSave_guards (parseInt : string -> option Z) (trim : string -> string)
    (host : Host) (db : Db) (newId : string) (form : MovementForm) :
  (forall db' m,
     handleSave parseInt trim host (tbl_products db) db newId form = Stored db' m ->
     selectedProduct form <> EmptyString
     /\ parseInt (form_quantity form) = Some (quantity m)
     /\ 0 < quantity m
     /\ productId m = selectedProduct form
     /\ type m = form_type form
     /\ note m = trim (form_note form)
     /\ tbl_movements db' = tbl_movements db ++ [m]
     /\ stockOf db' (selectedProduct form)
        = option_map
            (fun q => match form_type form with
                      | Entry => q + quantity m
                      | Exit => q - quantity m
                      end)
            (stockOf db (selectedProduct form))
     /\ (stockNonNegative (tbl_products db) -> stockNonNegative (tbl_products db')))
  /\ (handleSave parseInt trim host (tbl_products db) db newId form
      = Alerted InsufficientStock ->
      form_type form = Exit
      /\ exists q x,
           stockOf db (selectedProduct form) = Some q
           /\ parseInt (form_quantity form) = Some x /\ q < x).
Proof.
  unfold handleSave.
  destruct (String.eqb (selectedProduct form) EmptyString) eqn:Esel;
    [split; [intros ? ? H|intros H]; discriminate|].
  apply String.eqb_neq in Esel.
  destruct (parseInt (form_quantity form)) as [qty|];
    [|split; [intros ? ? H|intros H]; discriminate].
  destruct ((qty =? 0) || (qty <=? 0)) eqn:Eq;
    [split; [intros ? ? H|intros H]; discriminate|].
  apply orb_false_iff in Eq. destruct Eq as [_ Eq]. apply Z.leb_gt in Eq.
  set (b := {| body_id := newId; body_productId := selectedProduct form;
               body_type := form_type form; body_quantity := qty;
               body_note := trim (form_note form) |}).
  destruct (form_type form) eqn:Ety.
  - split; [|intros H; discriminate].
    intros db' m H. injection H as Hdb Hm. subst db' m.
    repeat split; auto.
    + etransitivity; [apply (addMovement_stockOf host db b)|]. subst b.
      cbn [body_productId body_type body_quantity].
      rewrite String.eqb_refl.
      destruct (stockOf db (selectedProduct form)); reflexivity.
    + intros Hinv.
      destruct (findProduct (tbl_products db) (body_productId b)) as [p|] eqn:F.
      * apply (addMovement_clamps_stock host db b F); [exact Hinv|].
        intros _. subst b. simpl. lia.
      * unfold addMovement. simpl. now rewrite (updateFirst_unknown host _ b F).
  - destruct (findProduct (tbl_products db) (selectedProduct form)) as [p|] eqn:F.
    + destruct (prod_quantity p <? qty) eqn:Elt.
      * split; [intros ? ? H; discriminate|]. intros _. split; [reflexivity|].
        exists (prod_quantity p), qty. unfold stockOf. rewrite F.
        apply Z.ltb_lt in Elt. auto.
      * split; [|intros H; discriminate].
        apply Z.ltb_ge in Elt.
        intros db' m H. injection H as Hdb Hm. subst db' m.
        repeat split; auto.
        -- etransitivity; [apply (addMovement_stockOf host db b)|]. subst b.
           cbn [body_productId body_type body_quantity].
           rewrite String.eqb_refl. unfold stockOf. rewrite F. simpl.
           f_equal. lia.
        -- intros Hinv. apply (addMovement_clamps_stock host db b F); [exact Hinv|].
           subst b. simpl. discriminate.
    + split; [|intros H; discriminate].
      intros db' m H. injection H as Hdb Hm. subst db' m.
      repeat split; auto.
      * etransitivity; [apply (addMovement_stockOf host db b)|].
        unfold stockOf. now rewrite F.
      * intros Hinv. unfold addMovement. simpl.
        now rewrite (updateFirst_unknown host _ b F).
Qed.

Lemma handleSave_guards_witness :
  exists db' m,
    handleSave (fun s => digitsValue s 0) (fun s => s) (utcHost 5)
      (tbl_products sampleDb) sampleDb "m9" (mkForm "p1" Exit "2" EmptyString)
    = Stored db' m
    /\ 0 < quantity m /\ stockOf db' "p1" = Some 1.
Proof.
  eexists. eexists. split; [reflexivity|].
  destruct (@handleSave_guards (fun s => digitsValue s 0) (fun s => s) (utcHost 5)
              sampleDb "m9" (mkForm "p1" Exit "2" EmptyString)) as [Hok _].
  destruct (Hok _ _ eq_refl) as [_ [_ [Hpos [_ [_ [_ [_ [Hstock _]]]]]]]].
  split; [exact Hpos | exact Hstock].
Defined.

(* ================================================================== *)
(** * Alerts and dashboard                                            *)
(* ================================================================== *)

Lemma sorted_zero_then_positive (l : list Product) :
  StronglySorted (fun a b => prod_quantity a <= prod_quantity b) l ->
  Forall (fun p => 0 <= prod_quantity p) l ->
  l = alertsOutOfStock l ++ alertsCritical l.
Proof.
  unfold alertsOutOfStock, alertsCritical.
  induction 1 as [|a l Hs IH Hall]; intros Hnn; simpl; [reflexivity|].
  inversion Hnn as [|? ? Ha Hl]; subst.
  destruct (prod_quantity a =? 0) eqn:E0.
  - apply Z.eqb_eq in E0.
    assert (Hp : (0 <? prod_quantity a) = false) by (apply Z.ltb_ge; lia).
    rewrite Hp. simpl. f_equal. now apply IH.
  - apply Z.eqb_neq in E0.
    assert (Hp : (0 <? prod_quantity a) = true) by (apply Z.ltb_lt; lia).
    rewrite Hp.
    assert (Hz : filter (fun p => prod_quantity p =? 0) l = []).
    { rewrite Forall_forall in Hall.
      clear - Hall Ha E0. induction l as [|x l IHl]; simpl; [reflexivity|].
      assert (prod_quantity a <= prod_quantity x) by (apply Hall; now left).
      assert (Hx : (prod_quantity x =? 0) = false) by (apply Z.eqb_neq; lia).
      rewrite Hx. apply IHl. intros y Hy. apply Hall. now right. }
    assert (Hpos : filter (fun p => 0 <? prod_quantity p) l = l).
    { rewrite Forall_forall in Hall.
      clear - Hall Ha E0. induction l as [|x l IHl]; simpl; [reflexivity|].
      assert (prod_quantity a <= prod_quantity x) by (apply Hall; now left).
      assert (Hx : (0 <? prod_quantity x) = true) by (apply Z.ltb_lt; lia).
      rewrite Hx. f_equal. apply IHl. intros y Hy. apply Hall. now right. }
    rewrite Hz, Hpos. reflexivity.
Qed.

(** X14.  On the alerts tab, with no negative stock: the low-stock list
    holds exactly the products at or below their minimum, in ascending
    order of quantity, and is the out-of-stock products followed by the
    products still in stock; the fill of an alert card is between 0 and
    100 percent, and is the stock as a percentage of the minimum when
    the minimum is positive. *)
Theorem alerts_partition (products : list Product) :
  stockNonNegative products ->
  let lowStock := alertsLowStock products in
  lowStock = alertsOutOfStock lowStock ++ alertsCritical lowStock
  /\ (forall p, In p lowStock <-> In p products /\ prod_quantity p <= minStock p)
  /\ StronglySorted (fun a b => prod_quantity a <= prod_quantity b) lowStock
  /\ (forall p, In p lowStock ->
        (0 <= alertPercentage p)%Q /\ (alertPercentage p <= 100)%Q
        /\ (0 < minStock p ->
            (alertPercentage p
             == inject_Z (prod_quantity p) / inject_Z (minStock p) * 100)%Q)).
Proof.
  intros Hnn lowStock.
  assert (Hin : forall p, In p lowStock <-> In p products /\ prod_quantity p <= minStock p).
  { intros p. unfold lowStock, alertsLowStock.
    rewrite jsSortZ_In, filter_In, Z.leb_le. reflexivity. }
  assert (Hsorted : StronglySorted (fun a b => prod_quantity a <= prod_quantity b) lowStock)
    by apply (jsSortZ_asc_sorted prod_quantity).
  unfold stockNonNegative in Hnn. rewrite Forall_forall in Hnn.
  split; [|split; [exact Hin | split; [exact Hsorted|]]].
  - apply sorted_zero_then_positive; [exact Hsorted|].
    apply Forall_forall. intros p Hp. apply Hnn. now apply Hin.
  - intros p Hp. apply Hin in Hp. destruct Hp as [Hp Hle].
    pose proof (Hnn p Hp) as H0.
    unfold alertPercentage, Math_minQ.
    destruct (0 <? minStock p) eqn:Em.
    + apply Z.ltb_lt in Em.
      assert (HmQ : (0 < inject_Z (minStock p))%Q).
      { change 0%Q with (inject_Z 0). rewrite <- Zlt_Qlt. exact Em. }
      assert (HqQ : (0 <= inject_Z (prod_quantity p))%Q).
      { change 0%Q with (inject_Z 0). rewrite <- Zle_Qle. exact H0. }
      assert (HleQ : (inject_Z (prod_quantity p) <= inject_Z (minStock p))%Q)
        by (rewrite <- Zle_Qle; exact Hle).
      assert (H1 : (inject_Z (prod_quantity p) / inject_Z (minStock p) <= 1)%Q)
        by (apply Qle_shift_div_r; [exact HmQ | lra]).
      assert (H2 : (0 <= inject_Z (prod_quantity p) / inject_Z (minStock p))%Q)
        by (apply Qle_shift_div_l; [exact HmQ | lra]).
      destruct (Qlt_le_dec
                  (inject_Z (prod_quantity p) / inject_Z (minStock p) * 100) 100);
        repeat split; intros; lra.
    + repeat split; try lra. intros H. apply Z.ltb_ge in Em. lia.
Qed.

Lemma alerts_partition_witness :
  let products := [sampleProduct "p1" 0 2;
                   mkProduct "p2" "p2" "cat_1" 3 5 1 "un" 0;
                   mkProduct "p3" "p3" "cat_1" 9 5 1 "un" 0] in
  alertsLowStock products
  = alertsOutOfStock (alertsLowStock products)
    ++ alertsCritical (alertsLowStock products).
Proof.
  intros products.
  assert (Hnn : stockNonNegative products).
  { repeat constructor; simpl; lia. }
  destruct (@alerts_partition products Hnn) as [H _].
  exact H.
Defined.

(** X15.  The dashboard's recent movements are at most five movements
    of the loaded list, newest first, and none of the movements left
    out is newer than one that is shown; with at most five movements
    loaded all of them are shown. *)
Theorem recent_movements_are_newest (loaded : list Movement) :
  let shown := recentMovements loaded in
  let rest := skipn 5 (sortNewestFirst loaded) in
  (length shown <= 5)%nat
  /\ Permutation (shown ++ rest) loaded
  /\ StronglySorted (fun a b => createdAt b <= createdAt a) shown
  /\ (forall m m', In m shown -> In m' rest -> createdAt m' <= createdAt m)
  /\ ((length loaded <= 5)%nat -> Permutation shown loaded).
Proof.
  intros shown rest.
  assert (Hsorted : StronglySorted (fun a b => createdAt b <= createdAt a)
                      (sortNewestFirst loaded))
    by apply (jsSortZ_desc_sorted createdAt).
  assert (Hperm : Permutation (sortNewestFirst loaded) loaded) by apply jsSortZ_perm.
  split; [apply firstn_le_length|].
  split; [unfold shown, rest, recentMovements, slice0; now rewrite firstn_skipn|].
  split; [now apply StronglySorted_firstn|].
  split.
  - intros m m' Hm Hm'.
    exact (@StronglySorted_firstn_skipn _ (fun a b => createdAt b <= createdAt a)
             5%nat (sortNewestFirst loaded) m m' Hsorted Hm Hm').
  - intros Hlen. unfold shown, recentMovements, slice0.
    rewrite firstn_all2; [exact Hperm|].
    now rewrite (Permutation_length Hperm).
Qed.

Lemma recent_movements_are_newest_witness :
  Permutation
    (recentMovements [sampleMovement "p1" Exit 1 10; sampleMovement "p2" Exit 1 30])
    [sampleMovement "p1" Exit 1 10; sampleMovement "p2" Exit 1 30].
Proof.
  destruct (recent_movements_are_newest
              [sampleMovement "p1" Exit 1 10; sampleMovement "p2" Exit 1 30])
    as [_ [_ [_ [_ H]]]].
  apply H. simpl. lia.
Defined.

(* ================================================================== *)
(** * Deleting a category                                             *)
(* ================================================================== *)

Lemma productCounts_get_from (cats : list Category) (prods : list Product)
    (o : JsObject Z) (id : string) :
  obj_get
    (fold_left
       (fun counts cat =>
          obj_set counts (cat_id cat)
            (Z.of_nat
               (length (filter (fun p => String.eqb (categoryId p) (cat_id cat)) prods))))
       cats o) id
  = if existsb (fun c => String.eqb (cat_id c) id) cats
    then Some (Z.of_nat
                 (length (filter (fun p => String.eqb (categoryId p) id) prods)))
    else obj_get o id.
Proof.
  revert o. induction cats as [|c cs IH]; intros o; simpl; [reflexivity|].
  rewrite IH. destruct (existsb (fun c0 => String.eqb (cat_id c0) id) cs);
    [now rewrite orb_true_r|].
  rewrite orb_false_r. destruct (String.eqb (cat_id c) id) eqn:E.
  - apply String.eqb_eq in E. subst id. apply obj_get_set_same.
  - apply String.eqb_neq in E. now apply obj_get_set_other.
Qed.

(** X16.  Deleting a category from the categories screen, with the
    counts loaded from the same lists: a category that still has
    products is kept, so every product whose category was listed still
    finds it afterwards; a category without products disappears when
    the user confirms, and the other categories stay. *)
Theorem category_delete_keeps_products (categories : list Category)
    (products : list Product) (confirmed : bool) (cat : Category) :
  In cat categories ->
  let after :=
    handleDeleteCategory (productCounts categories products) confirmed categories cat in
  (forall p, In p products ->
     (exists c, In c categories /\ cat_id c = categoryId p) ->
     exists c, In c after /\ cat_id c = categoryId p)
  /\ (forall c, cat_id c <> cat_id cat -> (In c after <-> In c categories))
  /\ ((exists p, In p products /\ categoryId p = cat_id cat) -> after = categories)
  /\ (confirmed = true ->
      (forall p, In p products -> categoryId p <> cat_id cat) ->
      forall c, In c after -> cat_id c <> cat_id cat).
Proof.
  intros Hcat after. subst after. unfold handleDeleteCategory, productCounts.
  rewrite productCounts_get_from.
  assert (Hex : existsb (fun c => String.eqb (cat_id c) (cat_id cat)) categories = true).
  { apply existsb_exists. exists cat. split; [exact Hcat | apply String.eqb_refl]. }
  rewrite Hex. simpl.
  set (mine := filter (fun p => String.eqb (categoryId p) (cat_id cat)) products).
  assert (Hmine : forall p, In p mine <-> In p products /\ categoryId p = cat_id cat).
  { intros p. unfold mine. rewrite filter_In, String.eqb_eq. reflexivity. }
  assert (Hdel : forall c, In c (deleteCategory categories (cat_id cat))
                           <-> In c categories /\ cat_id c <> cat_id cat).
  { intros c. unfold deleteCategory.
    rewrite filter_In, negb_true_iff, String.eqb_neq. reflexivity. }
  destruct (0 <? Z.of_nat (length mine)) eqn:Ecount.
  - split; [auto|]. split; [tauto|]. split; [reflexivity|].
    intros _ Hnone c _. exfalso.
    apply Z.ltb_lt in Ecount. destruct mine as [|p0 m0] eqn:Em; [simpl in Ecount; lia|].
    assert (Hp0 : In p0 products /\ categoryId p0 = cat_id cat)
      by (apply Hmine; now left).
    destruct Hp0 as [Hp0 E0]. exact (Hnone p0 Hp0 E0).
  - apply Z.ltb_ge in Ecount.
    assert (Hempty : mine = []) by (apply length_zero_iff_nil; lia).
    assert (Hnone : forall p, In p products -> categoryId p <> cat_id cat).
    { intros p Hp E. assert (In p mine) by (apply Hmine; auto).
      rewrite Hempty in H. contradiction. }
    destruct confirmed.
    + split; [|split; [|split]].
      * intros p Hp [c [Hc E]]. exists c. split; [|exact E].
        apply Hdel. split; [exact Hc|]. rewrite E. now apply Hnone.
      * intros c Hne. rewrite Hdel. tauto.
      * intros [p [Hp E]]. exfalso. exact (Hnone p Hp E).
      * intros _ _ c Hc. now apply Hdel in Hc.
    + split; [auto|]. split; [tauto|]. split; [reflexivity|]. discriminate.
Qed.

Lemma category_delete_keeps_products_witness :
  let categories := [mkCategory "cat_1" "A" "#111"; mkCategory "cat_2" "B" "#222"] in
  let products := [sampleProduct "p1" 5 10] in
  handleDeleteCategory (productCounts categories products) true categories
    (mkCategory "cat_1" "A" "#111") = categories.
Proof.
  intros categories products.
  assert (Hin : In (mkCategory "cat_1" "A" "#111") categories) by (now left).
  destruct (@category_delete_keeps_products categories products true _ Hin)
    as [_ [_ [Hkeep _]]].
  apply Hkeep. exists (sampleProduct "p1" 5 10). split; [now left | reflexivity].
Defined.
